(** * The SSR middleware of githubRank: request pipeline and cache clearing

    A shallow embedding of [SsrMiddleware] (methods [use] and [clearCache])
    together with the fragment of the JavaScript runtime it relies on
    ([String.prototype.startsWith], [includes], [replace] with a string
    pattern, [JSON.stringify], template literals).

    JavaScript strings are modelled as [string] (sequences of 8-bit code
    units, i.e. the UTF-8 encoding of the text).  Every pattern the
    middleware searches for is ASCII, and UTF-8 is self-synchronising, so
    substring search and replacement give the same result as on UTF-16. *)

From Stdlib Require Import ZArith Ascii String List Lia Bool DecimalString.
From stdpp Require Import gmap strings.

Local Open Scope Z_scope.

(** ** Strings as the JavaScript runtime sees them *)

Module Js.

(** [s.startsWith(p)] *)
Fixpoint startsWith (p s : string) : bool :=
  match p with
  | EmptyString => true
  | String a p' =>
      match s with
      | EmptyString => false
      | String b s' => Ascii.eqb a b && startsWith p' s'
      end
  end.

(** [s.slice(n)] for [n <= s.length] *)
Fixpoint drop (n : nat) (s : string) : string :=
  match n, s with
  | O, _ => s
  | S n', String _ s' => drop n' s'
  | S _, EmptyString => EmptyString
  end.

(** The text before and after the first occurrence of [p] in [s]
    (the position is [s.indexOf(p)]), or [None] when [p] does not occur. *)
Fixpoint splitFirst (p s : string) : option (string * string) :=
  if startsWith p s then Some (EmptyString, drop (String.length p) s)
  else
    match s with
    | EmptyString => None
    | String c s' =>
        match splitFirst p s' with
        | Some (pre, post) => Some (String c pre, post)
        | None => None
        end
    end.

(** [s.includes(p)] *)
Definition includes (p s : string) : bool :=
  match splitFirst p s with Some _ => true | None => false end.

(** GetSubstitution of ECMA-262 for a string pattern (no capture groups):
    in the replacement text, [$$] stands for [$], [$&] for the matched
    text, [$`] for the text before the match and [$'] for the text after
    it; any other [$] is literal. *)
Fixpoint getSubstitution (matched pre post repl : string) : string :=
  match repl with
  | EmptyString => EmptyString
  | String c r =>
      if Ascii.eqb c "$" then
        match r with
        | String d r' =>
            if Ascii.eqb d "$" then
              String "$" (getSubstitution matched pre post r')
            else if Ascii.eqb d "&" then
              matched +:+ getSubstitution matched pre post r'
            else if Ascii.eqb d "`" then
              pre +:+ getSubstitution matched pre post r'
            else if Ascii.eqb d "'" then
              post +:+ getSubstitution matched pre post r'
            else String c (getSubstitution matched pre post r)
        | EmptyString => String c EmptyString
        end
      else String c (getSubstitution matched pre post r)
  end.

(** [s.replace(p, repl)] with a string pattern: only the first occurrence
    is replaced, and [s] is returned unchanged when there is none. *)
Definition replace (p repl s : string) : string :=
  match splitFirst p s with
  | Some (pre, post) => pre +:+ getSubstitution p pre post repl +:+ post
  | None => s
  end.

(** *** Values of type [any] *)

(** Integers (of magnitude below 2^53) stand for the numbers; an object
    is the list of its own enumerable string-keyed properties in
    enumeration order. *)
#[warnings="-register-all"]
Inductive Value : Type :=
  | Undefined
  | Null
  | Bool (b : bool)
  | Num (n : Z)
  | Str (s : string)
  | Arr (elems : list Value)
  | Obj (props : list (string * Value)).

Definition Error : Type := string.

(** A computation of the runtime either completes normally or throws. *)
Inductive Completion (A : Type) : Type :=
  | Normal (a : A)
  | Throw (e : Error).
Arguments Normal {A} a.
Arguments Throw {A} e.

Fixpoint lookupProp (k : string) (props : list (string * Value)) : Value :=
  match props with
  | nil => Undefined
  | (k', v) :: rest => if String.eqb k k' then v else lookupProp k rest
  end.

(** [v.k] for a property name [k] that no prototype defines: a TypeError
    on [undefined] and [null], the own property of an object, [undefined]
    on everything else. *)
Definition getProp (v : Value) (k : string) : Completion Value :=
  match v with
  | Undefined | Null => Throw "TypeError: Cannot read properties"
  | Obj props => Normal (lookupProp k props)
  | _ => Normal Undefined
  end.

Definition dquote : ascii := ascii_of_nat 34.

Definition hexDigit (n : nat) : ascii :=
  nth n (list_ascii_of_string "0123456789abcdef") "0"%char.

(** QuoteJSONString, one code unit *)
Definition quoteChar (c : ascii) : string :=
  let n := nat_of_ascii c in
  if Nat.eqb n 34 then String "\" (String dquote EmptyString)
  else if Nat.eqb n 92 then "\\"
  else if Nat.eqb n 8 then "\b"
  else if Nat.eqb n 12 then "\f"
  else if Nat.eqb n 10 then "\n"
  else if Nat.eqb n 13 then "\r"
  else if Nat.eqb n 9 then "\t"
  else if Nat.ltb n 32 then
    "\u00" +:+ String (hexDigit (Nat.div n 16))
                 (String (hexDigit (Nat.modulo n 16)) EmptyString)
  else String c EmptyString.

Fixpoint quoteBody (s : string) : string :=
  match s with
  | EmptyString => EmptyString
  | String c s' => quoteChar c +:+ quoteBody s'
  end.

Definition quote (s : string) : string :=
  String dquote (quoteBody s +:+ String dquote EmptyString).

Definition numToString (n : Z) : string :=
  NilZero.string_of_int (Z.to_int n).

Fixpoint joinWith (sep : string) (l : list string) : string :=
  match l with
  | nil => EmptyString
  | x :: nil => x
  | x :: rest => x +:+ sep +:+ joinWith sep rest
  end.

(** [JSON.stringify(v)]; [None] is the result [undefined].  A property
    whose value serialises to [undefined] is left out of an object, and
    such an element of an array is written [null]. *)
Fixpoint stringify (v : Value) : option string :=
  match v with
  | Undefined => None
  | Null => Some "null"
  | Bool true => Some "true"
  | Bool false => Some "false"
  | Num n => Some (numToString n)
  | Str s => Some (quote s)
  | Arr elems =>
      Some ("[" +:+
            joinWith ","
              (List.map (fun e => match stringify e with
                                  | Some t => t
                                  | None => "null"
                                  end) elems) +:+ "]")
  | Obj props =>
      Some ("{" +:+
            joinWith ","
              ((fix members (l : list (string * Value)) : list string :=
                  match l with
                  | nil => nil
                  | (k, x) :: rest =>
                      match stringify x with
                      | Some t => (quote k +:+ ":" +:+ t) :: members rest
                      | None => members rest
                      end
                  end) props) +:+ "}")
  end.

(** [`${JSON.stringify(v)}`]: [undefined] interpolates as its name. *)
Definition interpolate (o : option string) : string :=
  match o with Some t => t | None => "undefined" end.

End Js.


(** ** The collaborators of the middleware *)

(** A file-system path as its list of segments below the root. *)
Definition Path : Type := list string.

(** [path.join(base, ...segs)] on a normalised base: [..] drops the last
    segment, any other name is appended. *)
Fixpoint join (base : Path) (segs : list string) : Path :=
  match segs with
  | nil => base
  | s :: rest =>
      if String.eqb s ".." then join (removelast base) rest
      else join (base ++ s :: nil) rest
  end.

(** What the render entry point resolves to (lines 54-61). *)
Record RenderResult : Type := {
  html : string;
  ctx : Js.Value;
  headTags : string;
  htmlAttrs : string;
  bodyAttrs : string;
  preloadLinks : string
}.

(** The render entry point: [render(url, preloadData, manifest)]. *)
Definition RenderFn : Type :=
  string -> Js.Value -> Js.Value -> Js.Completion RenderResult.

(** The dev module server, as far as the middleware calls it;
    [ssrLoadModule] gives the [render] export of the loaded module. *)
Record Vite : Type := {
  transformIndexHtml : string -> string -> Js.Completion string;
  ssrLoadModule : string -> Js.Completion RenderFn
}.

(** The calls on the cache manager, each of which may reject. *)
Inductive CacheOp : Type :=
  | OpGet (key : string)
  | OpSet (key : string)
  | OpKeys
  | OpDel (key : string).

(** The environment of the process: everything outside the middleware. *)
Record Env : Type := {
  NODE_ENV : option string;
  dirname : Path;
  cacheFault : CacheOp -> option Js.Error;
  requireJson : Path -> Js.Completion Js.Value;
  requireRender : Path -> Js.Completion RenderFn;
  readFileSync : Path -> Js.Completion string;
  createServer : Js.Completion Vite;
  getPrefetchData : string -> Js.Completion Js.Value
}.

Record Request : Type := {
  originalUrl : string;
  path : string
}.

Inductive LogMsg : Type :=
  | CacheHit
  | SsrRenderError (e : Js.Error)
  | SsrMiddlewareError (e : Js.Error)
  | CacheCleared (n : nat)
  | NoCacheToClear
  | ClearFailed (e : Js.Error).

(** What a run does to the outside, in order. *)
Inductive Event : Type :=
  | CacheGet (key : string)
  | CacheSet (key value : string) (ttl : Z)
  | CacheKeys
  | CacheDel (key : string)
  | Require (p : Path)
  | ReadFile (p : Path)
  | CreateServer
  | TransformIndexHtml (url template : string)
  | SsrLoadModule (id : string)
  | SsrFixStacktrace (e : Js.Error)
  | GetPrefetchData (url : string)
  | Render (url : string) (preloadData manifest : Js.Value)
  | Console (msg : LogMsg)
  | Respond (status : Z) (contentType body : string)
  | Next (err : option Js.Error).

(** The state a request runs in: the effects so far, the [vite] field of
    the middleware, the cache store (value and time-to-live per key) and
    whether the response of this request has been sent. *)
Record State : Type := {
  events : list Event;
  vite : option Vite;
  store : gmap string (string * Z);
  headersSent : bool
}.

(** A request arrives with a fresh response object. *)
Definition arrive (v : option Vite) (c : gmap string (string * Z)) : State :=
  {| events := nil; vite := v; store := c; headersSent := false |}.

(** ** A state and exception monad for the method bodies *)

Definition M (A : Type) : Type := State -> Js.Completion A * State.

Definition ret {A} (a : A) : M A := fun st => (Js.Normal a, st).

Definition throw {A} (e : Js.Error) : M A := fun st => (Js.Throw e, st).

Definition bind {A B} (m : M A) (k : A -> M B) : M B :=
  fun st =>
    match m st with
    | (Js.Normal a, st') => k a st'
    | (Js.Throw e, st') => (Js.Throw e, st')
    end.

Definition tryCatch {A} (m : M A) (handler : Js.Error -> M A) : M A :=
  fun st =>
    match m st with
    | (Js.Normal a, st') => (Js.Normal a, st')
    | (Js.Throw e, st') => handler e st'
    end.

Notation "'let*' x ':=' m 'in' k" := (bind m (fun x => k))
  (at level 10, x name, m at level 100, k at level 200).
Notation "m ';;' k" := (bind m (fun _ => k))
  (at level 100, k at level 200, right associativity).

Definition emit (ev : Event) : M unit :=
  fun st =>
    (Js.Normal tt,
     {| events := events st ++ ev :: nil; vite := vite st;
        store := store st; headersSent := headersSent st |}).

(** A synchronous or awaited call whose result the environment decides. *)
Definition call {A} (ev : Event) (r : Js.Completion A) : M A :=
  emit ev ;;
  match r with
  | Js.Normal a => ret a
  | Js.Throw e => throw e
  end.

(** ** The middleware *)

Module SsrMiddleware.

Section Methods.

Variable env : Env.

(** Line 14: [process.env.NODE_ENV === 'production'] *)
Definition isProd : bool :=
  match NODE_ENV env with
  | Some s => String.eqb s "production"
  | None => false
  end.

(** Lines 15-16 *)
Definition distPath : Path :=
  join (dirname env) (".." :: ".." :: ".." :: "client" :: "dist" :: nil).

Definition srcPath : Path :=
  join (dirname env) (".." :: ".." :: ".." :: "client" :: nil).

(** *** The cache manager

    [get] resolves with the stored value or with [undefined]; [set]
    stores the value under its time-to-live; a call the environment makes
    fail rejects and leaves the store as it is.  Expiry is not modelled:
    the store holds the entries that are live. *)

Definition cacheGet (key : string) : M (option string) :=
  let* _ := emit (CacheGet key) in
  match cacheFault env (OpGet key) with
  | Some e => throw e
  | None => fun st => (Js.Normal (fst <$> store st !! key), st)
  end.

Definition cacheSet (key value : string) (ttl : Z) : M unit :=
  let* _ := emit (CacheSet key value ttl) in
  match cacheFault env (OpSet key) with
  | Some e => throw e
  | None =>
      fun st =>
        (Js.Normal tt,
         {| events := events st; vite := vite st;
            store := <[key := (value, ttl)]> (store st);
            headersSent := headersSent st |})
  end.

Definition cacheKeys : M (list string) :=
  let* _ := emit CacheKeys in
  match cacheFault env OpKeys with
  | Some e => throw e
  | None => fun st => (Js.Normal (fst <$> map_to_list (store st)), st)
  end.

Definition cacheDel (key : string) : M unit :=
  let* _ := emit (CacheDel key) in
  match cacheFault env (OpDel key) with
  | Some e => throw e
  | None =>
      fun st =>
        (Js.Normal tt,
         {| events := events st; vite := vite st;
            store := delete key (store st);
            headersSent := headersSent st |})
  end.

(** *** The response and the chain *)

(** [res.status(status).set({'Content-Type': contentType}).end(body)]:
    setting a header on a response that was already sent throws. *)
Definition respond (status : Z) (contentType body : string) : M unit :=
  fun st =>
    if headersSent st then (Js.Throw "ERR_HTTP_HEADERS_SENT", st)
    else
      (Js.Normal tt,
       {| events := events st ++ Respond status contentType body :: nil;
          vite := vite st; store := store st; headersSent := true |}).

Definition next (err : option Js.Error) : M unit := emit (Next err).

Definition console (msg : LogMsg) : M unit := emit (Console msg).

(** [if (cachedPage)]: [undefined] and the empty string are falsy. *)
Definition truthy (cachedPage : option string) : option string :=
  match cachedPage with
  | Some EmptyString => None
  | Some page => Some page
  | None => None
  end.

(** Lines 40-44 *)
Definition bypass (req : Request) : bool :=
  Js.startsWith "/api" (path req)
  || Js.startsWith "/service" (path req)
  || Js.includes "/assets" (path req).

(** *** Lines 62-85: the manifest, the template and the render function *)

(** Lines 66-72: the dev server is created on first use and kept. *)
Definition devServer : M Vite :=
  fun st =>
    match vite st with
    | Some v => (Js.Normal v, st)
    | None =>
        (let* v := call CreateServer (createServer env) in
         fun st' =>
           (Js.Normal v,
            {| events := events st'; vite := Some v; store := store st';
               headersSent := headersSent st' |})) st
    end.

Definition resolve (url : string) : M (Js.Value * string * RenderFn) :=
  let manifestPath := join distPath ("client" :: ".vite" :: "manifest.json" :: nil) in
  let* manifest := call (Require manifestPath) (requireJson env manifestPath) in
  if negb isProd then
    let* v := devServer in
    let shell := join srcPath ("index.html" :: nil) in
    let* template := call (ReadFile shell) (readFileSync env shell) in
    let* template :=
      call (TransformIndexHtml url template) (transformIndexHtml v url template) in
    let* render :=
      call (SsrLoadModule "/src/entry-server.ts")
           (ssrLoadModule v "/src/entry-server.ts") in
    ret (manifest, template, render)
  else
    let shell := join distPath ("client" :: "index.html" :: nil) in
    let* template := call (ReadFile shell) (readFileSync env shell) in
    let entry := join distPath ("server" :: "entry-server.cjs" :: nil) in
    let* render := call (Require entry) (requireRender env entry) in
    ret (manifest, template, render).

(** *** Lines 99-106: the assembly of the page *)

Definition preloadStateScript (preloadState : Js.Value) : string :=
  "<script>window.__PRELOAD_STATE__ = "
    +:+ Js.interpolate (Js.stringify preloadState) +:+ "</script>".

Definition assemble (template : string) (r : RenderResult)
    (preloadState : Js.Value) : string :=
  Js.replace "<!--preload-state-->" (preloadStateScript preloadState)
    (Js.replace "<!--ssr-outlet-->" (html r)
       (Js.replace "</head>" (headTags r +:+ "</head>")
          (Js.replace "<body>" ("<body " +:+ bodyAttrs r +:+ ">")
             (Js.replace "<html>" ("<html " +:+ htmlAttrs r +:+ ">")
                (Js.replace "<!--preload-links-->" (preloadLinks r)
                   template))))).

(** *** Lines 87-124: prefetch, render, respond, cache *)

(** Lines 88-118, the body of the inner [try] *)
Definition renderPage (url cacheKey : string) (manifest : Js.Value)
    (template : string) (render : RenderFn) : M unit :=
  let* prefetchData := call (GetPrefetchData url) (getPrefetchData env url) in
  let* r := call (Render url prefetchData manifest)
                 (render url prefetchData manifest) in
  let* preloadState :=
    (fun st => (Js.getProp (ctx r) "preloadState", st)) in
  let html := assemble template r preloadState in
  let renderedPage := html in
  let* _ := respond 200 "text/html" html in
  if isProd then cacheSet cacheKey renderedPage (60 * 60 * 24 * 1000)
  else ret tt.

(** Lines 119-124, the inner [catch] *)
Definition degrade (template : string) (renderError : Js.Error) : M unit :=
  let* _ := console (SsrRenderError renderError) in
  let html := Js.replace "<!--ssr-outlet-->" EmptyString template in
  respond 200 "text/html" html.

(** Lines 125-131, the outer [catch] *)
Definition fail (e : Js.Error) : M unit :=
  let* _ :=
    (fun st =>
       match vite st with
       | Some _ => if negb isProd then emit (SsrFixStacktrace e) st
                   else (Js.Normal tt, st)
       | None => (Js.Normal tt, st)
       end) in
  let* _ := console (SsrMiddlewareError e) in
  next (Some e).

(** Lines 39-131 *)
Definition pipeline (req : Request) (cacheKey : string) : M unit :=
  let url := originalUrl req in
  if bypass req then next None
  else
    tryCatch
      (let* resolved := resolve url in
       let '(manifest, template, render) := resolved in
       tryCatch (renderPage url cacheKey manifest template render)
                (degrade template))
      fail.

(** Lines 23-132.  The promise [use] returns resolves ([Normal]) or
    rejects ([Throw]). *)
Definition use (req : Request) : M unit :=
  let url := originalUrl req in
  let cacheKey := "ssr:" +:+ url in
  if isProd then
    let* cachedPage := cacheGet cacheKey in
    match truthy cachedPage with
    | Some page =>
        let* _ := console CacheHit in
        respond 200 "text/html" page
    | None => pipeline req cacheKey
    end
  else pipeline req cacheKey.

(** *** Lines 137-153: clearing the cache *)

(** [Promise.all(keys.map(key => del(key)))]: every deletion is issued;
    the result rejects, with the rejection of the first call that failed,
    as soon as one of them does. *)
Fixpoint delAll (keys : list string) : M unit :=
  match keys with
  | nil => ret tt
  | key :: rest =>
      fun st =>
        match cacheDel key st with
        | (Js.Normal _, st') => delAll rest st'
        | (Js.Throw e, st') => (Js.Throw e, snd (delAll rest st'))
        end
  end.

(** The method has no [return]: its promise resolves with [undefined]. *)
Definition clearCache : M Js.Value :=
  tryCatch
    (let* keys := cacheKeys in
     let ssrKeys := List.filter (Js.startsWith "ssr:") keys in
     let* _ :=
       if (0 <? Z.of_nat (List.length ssrKeys)) then
         let* _ := delAll ssrKeys in
         console (CacheCleared (List.length ssrKeys))
       else console NoCacheToClear in
     ret Js.Undefined)
    (fun error =>
       let* _ := console (ClearFailed error) in
       throw error).

End Methods.

End SsrMiddleware.

Import SsrMiddleware.

(** ** Reading a trace *)

(** The responses sent, the cache entries written, the keys looked up,
    the render calls and the hand-overs to the chain, each in order. *)
Definition responses (evs : list Event) : list (Z * string * string) :=
  flat_map (fun ev => match ev with
                      | Respond status ct body => (status, ct, body) :: nil
                      | _ => nil
                      end) evs.

Definition cacheWrites (evs : list Event) : list (string * string * Z) :=
  flat_map (fun ev => match ev with
                      | CacheSet k v ttl => (k, v, ttl) :: nil
                      | _ => nil
                      end) evs.

Definition cacheReads (evs : list Event) : list string :=
  flat_map (fun ev => match ev with
                      | CacheGet k => k :: nil
                      | _ => nil
                      end) evs.

Definition renderCalls (evs : list Event)
    : list (string * Js.Value * Js.Value) :=
  flat_map (fun ev => match ev with
                      | Render url d m => (url, d, m) :: nil
                      | _ => nil
                      end) evs.

Definition handovers (evs : list Event) : list (option Js.Error) :=
  flat_map (fun ev => match ev with
                      | Next err => err :: nil
                      | _ => nil
                      end) evs.

(** The events of lines 62-85: loading files and modules. *)
Definition loading (ev : Event) : bool :=
  match ev with
  | Require _ | ReadFile _ | CreateServer
  | TransformIndexHtml _ _ | SsrLoadModule _ => true
  | _ => false
  end.

(** The state in which lines 39-131 start: in production the cache was
    looked up before. *)
Definition afterLookup (env : Env) (req : Request) (v : option Vite)
    (c : gmap string (string * Z)) : State :=
  {| events := if SsrMiddleware.isProd env
               then CacheGet ("ssr:" +:+ originalUrl req) :: nil
               else nil;
     vite := v; store := c; headersSent := false |}.

(** The production lookup resolves without a page to serve (in
    development there is no lookup). *)
Definition missed (env : Env) (req : Request)
    (c : gmap string (string * Z)) : Prop :=
  SsrMiddleware.isProd env = true ->
  cacheFault env (OpGet ("ssr:" +:+ originalUrl req)) = None /\
  SsrMiddleware.truthy (fst <$> c !! ("ssr:" +:+ originalUrl req)) = None.

(** The path of the manifest, [<buildOutput>/client/.vite/manifest.json]. *)
Definition manifestPath (env : Env) : Path :=
  join (SsrMiddleware.distPath env)
       ("client" :: ".vite" :: "manifest.json" :: nil).

(** The markers of the template. *)
Definition outlet : string := "<!--ssr-outlet-->".

Definition otherMarkers : list string :=
  "<!--preload-links-->" :: "<!--preload-state-->" :: "<html>" :: "<body>"
    :: "</head>" :: nil.

(** A computation that only loads: it adds loading events, and touches
    neither the store nor the response. *)
Definition loadsOnly {A} (m : M A) : Prop :=
  forall st r st', m st = (r, st') ->
    exists evs, events st' = events st ++ evs /\ forallb loading evs = true /\
                store st' = store st /\ headersSent st' = headersSent st.

(** The state after more events. *)
Definition after (st : State) (evs : list Event) : State :=
  {| events := events st ++ evs; vite := vite st; store := store st;
     headersSent := headersSent st |}.

(** The keys [clearCache] deletes: line 141. *)
Definition ssrKeys (st : State) : list string :=
  List.filter (Js.startsWith "ssr:") (fst <$> map_to_list (store st)).

(** ** Scenarios *)

Definition shell : string :=
  "<html><head><!--preload-links--></head><body><div id=app><!--ssr-outlet--></div><!--preload-state--></body></html>".

Definition rankPage : RenderResult :=
  {| html := "<h1>Rank</h1>";
     ctx := Js.Obj (("preloadState", Js.Obj (("total", Js.Num 3) :: nil)) :: nil);
     headTags := "<title>Rank</title>";
     htmlAttrs := "lang=en";
     bodyAttrs := "class=dark";
     preloadLinks := "<link rel=modulepreload href=/assets/app.js>" |}.

Definition renders (r : RenderResult) : RenderFn := fun _ _ _ => Js.Normal r.

Definition rejects (e : Js.Error) : RenderFn := fun _ _ _ => Js.Throw e.

Definition noFault : CacheOp -> option Js.Error := fun _ => None.

Definition getFault (e : Js.Error) : CacheOp -> option Js.Error :=
  fun op => match op with OpGet _ => Some e | _ => None end.

(** A deployment: mode, cache behaviour, manifest, template, render
    function and prefetch result. *)
Definition site (mode : option string) (fault : CacheOp -> option Js.Error)
    (manifest : Js.Completion Js.Value) (template : string)
    (render : RenderFn) (prefetch : Js.Completion Js.Value) : Env :=
  {| NODE_ENV := mode;
     dirname := "srv" :: "apps" :: "server" :: "dist" :: "middleware" :: nil;
     cacheFault := fault;
     requireJson := fun _ => manifest;
     requireRender := fun _ => Js.Normal render;
     readFileSync := fun _ => Js.Normal template;
     createServer :=
       Js.Normal {| transformIndexHtml := fun _ t => Js.Normal t;
                    ssrLoadModule := fun _ => Js.Normal render |};
     getPrefetchData := fun _ => prefetch |}.

Definition production : option string := Some "production".
Definition development : option string := Some "development".

Definition home : Request := {| originalUrl := "/"; path := "/" |}.

Definition apiUsers : Request :=
  {| originalUrl := "/api/users?page=2"; path := "/api/users" |}.

(** The scenario of the specification. *)
Definition scenarioTemplate : string :=
  "<html><head></head><body><!--ssr-outlet--><!--preload-state--></body></html>".

Definition scenarioState : Js.Value := Js.Obj (("x", Js.Num 1) :: nil).

Definition scenarioResult : RenderResult :=
  {| html := "<div>A</div>";
     ctx := Js.Obj (("preloadState", scenarioState) :: nil);
     headTags := EmptyString; htmlAttrs := EmptyString;
     bodyAttrs := EmptyString; preloadLinks := EmptyString |}.

Definition scenarioScript : string :=
  "<script>window.__PRELOAD_STATE__ = {"
    +:+ String Js.dquote ("x" +:+ String Js.dquote ":1}</script>").

Definition threeKeys : gmap string (string * Z) :=
  <["ssr:/a" := ("<html>a</html>", 86400000)]>
    (<["ssr:/b" := ("<html>b</html>", 86400000)]>
       (<["other:/c" := ("c", 1000)]> ∅)).

(** *** Deployments *)

Definition rejectingSite : Env :=
  site production noFault (Js.Normal (Js.Obj nil)) shell
       (rejects "render failed") (Js.Normal Js.Null).

Definition productionSite : Env :=
  site production noFault (Js.Normal (Js.Obj nil)) shell
       (renders rankPage) (Js.Normal Js.Null).

Definition unreachableCacheSite : Env :=
  site production (getFault "ECONNREFUSED") (Js.Normal (Js.Obj nil)) shell
       (renders rankPage) (Js.Normal Js.Null).

Definition unbuiltDevSite : Env :=
  site development noFault (Js.Throw "MODULE_NOT_FOUND") shell
       (renders rankPage) (Js.Normal Js.Null).

Definition prefetchDownSite : Env :=
  site production noFault (Js.Normal (Js.Obj nil)) shell
       (renders rankPage) (Js.Throw "prefetch failed").

(** A deployment whose template file is empty. *)
Definition blankSite : Env :=
  site production noFault (Js.Normal (Js.Obj nil)) EmptyString
       (renders rankPage) (Js.Normal Js.Null).

Definition cachedHome : gmap string (string * Z) :=
  <["ssr:/" := ("<html>cached</html>", 86400000)]> ∅.

Definition emptyEntry : gmap string (string * Z) :=
  <["ssr:/" := (EmptyString, 86400000)]> ∅.

(** ** Further readings of a trace *)

(** The calls on the dev module server. *)
Definition devServerUse (ev : Event) : bool :=
  match ev with
  | CreateServer | TransformIndexHtml _ _ | SsrLoadModule _
  | SsrFixStacktrace _ => true
  | _ => false
  end.

(** The calls on the cache manager. *)
Definition cacheUse (ev : Event) : bool :=
  match ev with
  | CacheGet _ | CacheSet _ _ _ | CacheKeys | CacheDel _ => true
  | _ => false
  end.

(** How often the dev module server was created. *)
Definition serverCreations (evs : list Event) : nat :=
  List.length
    (List.filter (fun ev => match ev with CreateServer => true | _ => false end)
       evs).

(** A file or module that is read lies under the client directory. *)
Definition underClient (env : Env) (ev : Event) : Prop :=
  match ev with
  | Require p | ReadFile p => exists rest, p = srcPath env ++ rest
  | _ => True
  end.

(** The text [JSON.stringify] copies into a string literal as it is. *)
Fixpoint plain (s : string) : bool :=
  match s with
  | EmptyString => true
  | String c s' =>
      String.eqb (Js.quoteChar c) (String c EmptyString) && plain s'
  end.

(** *** Further deployments *)

Definition devSite : Env :=
  site development noFault (Js.Normal (Js.Obj nil)) shell
       (renders rankPage) (Js.Normal Js.Null).

(** A render result without a context. *)
Definition bareResult : RenderResult :=
  {| html := "<h1>Rank</h1>"; ctx := Js.Undefined;
     headTags := EmptyString; htmlAttrs := EmptyString;
     bodyAttrs := EmptyString; preloadLinks := EmptyString |}.

Definition bareSite : Env :=
  site production noFault (Js.Normal (Js.Obj nil)) shell
       (renders bareResult) (Js.Normal Js.Null).

Definition setFault (e : Js.Error) : CacheOp -> option Js.Error :=
  fun op => match op with OpSet _ => Some e | _ => None end.

Definition readOnlyCacheSite : Env :=
  site production (setFault "READONLY") (Js.Normal (Js.Obj nil)) shell
       (renders rankPage) (Js.Normal Js.Null).

Definition delFault (key : string) (e : Js.Error)
    : CacheOp -> option Js.Error :=
  fun op => match op with
            | OpDel k => if String.eqb k key then Some e else None
            | _ => None
            end.

Definition stuckKeySite : Env :=
  site production (delFault "ssr:/a" "EIO") (Js.Normal (Js.Obj nil)) shell
       (renders rankPage) (Js.Normal Js.Null).

Definition apiary : Request :=
  {| originalUrl := "/apiary"; path := "/apiary" |}.

Definition idleServer : Vite :=
  {| transformIndexHtml := fun _ t => Js.Normal t;
     ssrLoadModule := fun _ => Js.Normal (renders rankPage) |}.

(** A render result whose markup holds a replacement pattern. *)
Definition patternResult : RenderResult :=
  {| html := "<b>$&</b>"; ctx := Js.Obj nil;
     headTags := EmptyString; htmlAttrs := EmptyString;
     bodyAttrs := EmptyString; preloadLinks := EmptyString |}.

Definition bareTemplate : string := "<p>hello</p>".

(** ** Tokens *)

(** [c] does not occur in [s]. *)
Fixpoint free (c : ascii) (s : string) : bool :=
  match s with
  | EmptyString => true
  | String x s' => negb (Ascii.eqb x c) && free c s'
  end.

(** [a] and [b] agree as far as both go. *)
Fixpoint agree (a b : string) : bool :=
  match a, b with
  | String x a', String y b' => Ascii.eqb x y && agree a' b'
  | _, _ => true
  end.

(** ** Facts about the string operations *)

Section StringFacts.

Lemma append_cons (x : ascii) (a b : string) :
  String x a +:+ b = String x (a +:+ b).
Proof. reflexivity. Qed.

Lemma append_nil_l (b : string) : EmptyString +:+ b = b.
Proof. reflexivity. Qed.

Lemma append_assoc (a b c : string) : (a +:+ b) +:+ c = a +:+ (b +:+ c).
Proof.
  induction a as [|x a IH]; [reflexivity|].
  now rewrite !append_cons, IH.
Qed.

Lemma append_nil_r (a : string) : a +:+ EmptyString = a.
Proof.
  induction a as [|x a IH]; [reflexivity|]. now rewrite append_cons, IH.
Qed.

Lemma startsWith_append (p b : string) : Js.startsWith p (p +:+ b) = true.
Proof.
  induction p as [|x p IH]; [reflexivity|].
  rewrite append_cons. simpl. now rewrite Ascii.eqb_refl, IH.
Qed.

Lemma startsWith_split (p s : string) :
  Js.startsWith p s = true -> s = p +:+ Js.drop (String.length p) s.
Proof.
  revert s; induction p as [|x p IH]; intros s H; [reflexivity|].
  destruct s as [|y s]; [discriminate|].
  simpl in H. apply andb_prop in H as [Hxy Hp].
  apply Ascii.eqb_eq in Hxy; subst y.
  rewrite append_cons. simpl. f_equal. now apply IH.
Qed.

(** [splitFirst] cuts the subject around an occurrence of the pattern. *)
Lemma splitFirst_Some (p s pre post : string) :
  Js.splitFirst p s = Some (pre, post) -> s = pre +:+ p +:+ post.
Proof.
  revert pre; induction s as [|c s IH]; intros pre H.
  - simpl in H. destruct (Js.startsWith p EmptyString) eqn:E; [|discriminate].
    inversion H; subst. rewrite append_nil_l. now apply startsWith_split in E.
  - unfold Js.splitFirst in H; fold Js.splitFirst in H.
    destruct (Js.startsWith p (String c s)) eqn:E.
    + inversion H; subst. rewrite append_nil_l.
      now apply startsWith_split in E.
    + destruct (Js.splitFirst p s) as [[pre' post']|] eqn:E'; [|discriminate].
      inversion H; subst. rewrite append_cons. f_equal. now apply IH.
Qed.

(** ... and that occurrence is the first one. *)
Lemma splitFirst_first (p s pre post a b : string) :
  Js.splitFirst p s = Some (pre, post) ->
  s = a +:+ p +:+ b ->
  (String.length pre <= String.length a)%nat.
Proof.
  revert pre a; induction s as [|c s IH]; intros pre a H Hs.
  - simpl in H. destruct (Js.startsWith p EmptyString); [|discriminate].
    inversion H; subst. simpl. lia.
  - unfold Js.splitFirst in H; fold Js.splitFirst in H.
    destruct (Js.startsWith p (String c s)) eqn:E.
    + inversion H; subst. simpl. lia.
    + destruct (Js.splitFirst p s) as [[pre' post']|] eqn:E'; [|discriminate].
      inversion H; subst. destruct a as [|x a].
      * rewrite append_nil_l in Hs. rewrite Hs, startsWith_append in E.
        discriminate.
      * rewrite append_cons in Hs. inversion Hs; subst. simpl.
        apply le_n_S. now apply (IH pre' a).
Qed.

Lemma splitFirst_here (p s : string) :
  Js.startsWith p s = true ->
  Js.splitFirst p s = Some (EmptyString, Js.drop (String.length p) s).
Proof. intros H. destruct s; simpl; now rewrite H. Qed.

Lemma includes_intro (p a b : string) : Js.includes p (a +:+ p +:+ b) = true.
Proof.
  unfold Js.includes. induction a as [|c a IH].
  - rewrite append_nil_l.
    now rewrite (splitFirst_here _ _ (startsWith_append p b)).
  - rewrite append_cons.
    unfold Js.splitFirst; fold Js.splitFirst.
    destruct (Js.startsWith p (String c (a +:+ p +:+ b))); [reflexivity|].
    destruct (Js.splitFirst p (a +:+ p +:+ b)) as [[? ?]|]; [reflexivity|].
    discriminate.
Qed.

Lemma includes_elim (p s : string) :
  Js.includes p s = true -> exists a b, s = a +:+ p +:+ b.
Proof.
  unfold Js.includes.
  destruct (Js.splitFirst p s) as [[pre post]|] eqn:E; [|discriminate].
  intros _. exists pre, post. now apply splitFirst_Some.
Qed.

(** An empty replacement text expands to nothing. *)
Lemma replace_empty (p s : string) :
  Js.replace p EmptyString s =
  match Js.splitFirst p s with
  | Some (pre, post) => pre +:+ post
  | None => s
  end.
Proof. unfold Js.replace. now destruct (Js.splitFirst p s) as [[? ?]|]. Qed.

(** *** Tokens that cannot overlap *)

Lemma agree_common (m o b s : string) : m +:+ b = o +:+ s -> agree m o = true.
Proof.
  revert o; induction m as [|x m IH]; intros [|y o] H; try reflexivity.
  rewrite !append_cons in H. inversion H; subst.
  simpl. rewrite Ascii.eqb_refl. simpl. now apply IH.
Qed.

Lemma free_prefix (c : ascii) (m b p r : string) :
  free c m = true -> m +:+ b = p +:+ String c r -> exists q, p = m +:+ q.
Proof.
  revert p; induction m as [|x m IH]; intros p Hf H.
  - now exists p.
  - simpl in Hf. apply andb_prop in Hf as [Hx Hm].
    rewrite append_cons in H.
    destruct p as [|y p];
      [rewrite append_nil_l in H | rewrite append_cons in H];
      inversion H; subst.
    + rewrite Ascii.eqb_refl in Hx. discriminate.
    + destruct (IH p Hm H2) as [q ->]. now exists q.
Qed.

Lemma append_cancel_l (o a b : string) : o +:+ a = o +:+ b -> a = b.
Proof.
  induction o as [|z o IH]; intros H; [exact H|].
  rewrite !append_cons in H. inversion H. now apply IH.
Qed.

(** Two tokens that start with the same character, hold it nowhere else,
    and are not a prefix of one another occur apart: an occurrence of [m]
    lies before or after any occurrence of [o]. *)
Lemma occurs_apart (c : ascii) (m o a b p s : string) :
  free c m = true -> free c o = true ->
  agree (String c m) (String c o) = false ->
  a +:+ String c m +:+ b = p +:+ String c o +:+ s ->
  (exists q, p = a +:+ String c m +:+ q) \/
  (exists q, s = q +:+ String c m +:+ b).
Proof.
  intros Hm Ho Hag. revert p.
  induction a as [|x a IH]; intros [|y p] H;
    rewrite ?append_nil_l, ?append_cons in H.
  - change (String c (m +:+ b)) with (String c m +:+ b) in H.
    change (String c (o +:+ s)) with (String c o +:+ s) in H.
    apply agree_common in H. congruence.
  - inversion H; subst. left.
    destruct (free_prefix _ _ _ _ _ Hm H2) as [q ->]. now exists q.
  - inversion H; subst. right. symmetry in H2.
    destruct (free_prefix _ _ _ _ _ Ho H2) as [q ->].
    rewrite append_assoc in H2. apply append_cancel_l in H2.
    exists q. now symmetry.
  - inversion H; subst. destruct (IH p H2) as [[q ->]|[q ->]].
    + left. now exists q.
    + right. now exists q.
Qed.

(** *** Removing the first occurrence *)

Lemma append_same_length (a b x y : string) :
  a +:+ x = b +:+ y -> String.length a = String.length b ->
  a = b /\ x = y.
Proof.
  revert b; induction a as [|c a IH]; intros [|d b] H Hlen;
    try discriminate Hlen.
  - now split.
  - rewrite !append_cons in H. inversion H; subst.
    simpl in Hlen. destruct (IH b H2) as [-> ->]; [lia | now split].
Qed.

(** The first occurrence, told without [splitFirst]: the cut whose left
    part is shortest. *)
Lemma splitFirst_shortest (p t pre post : string) :
  t = pre +:+ p +:+ post ->
  (forall a b, t = a +:+ p +:+ b ->
               (String.length pre <= String.length a)%nat) ->
  Js.splitFirst p t = Some (pre, post).
Proof.
  intros Ht Hmin.
  pose proof (includes_intro p pre post) as Hinc. rewrite <- Ht in Hinc.
  unfold Js.includes in Hinc.
  destruct (Js.splitFirst p t) as [[pre' post']|] eqn:E; [|discriminate].
  pose proof (splitFirst_Some _ _ _ _ E) as Ht'.
  pose proof (splitFirst_first _ _ _ _ _ _ E Ht) as Hle.
  pose proof (Hmin _ _ Ht') as Hge.
  rewrite Ht in Ht'.
  destruct (append_same_length _ _ _ _ Ht' ltac:(lia)) as [-> Hrest].
  apply append_cancel_l in Hrest. now subst.
Qed.

(** Replacing by nothing takes the first occurrence out, and nothing
    else; without an occurrence the text stays as it is. *)
Lemma replace_empty_spec (p t : string) :
  (forall pre post,
     t = pre +:+ p +:+ post ->
     (forall a b, t = a +:+ p +:+ b ->
                  (String.length pre <= String.length a)%nat) ->
     Js.replace p EmptyString t = pre +:+ post) /\
  ((forall a b, t <> a +:+ p +:+ b) -> Js.replace p EmptyString t = t).
Proof.
  split.
  - intros pre post Ht Hmin.
    now rewrite replace_empty, (splitFirst_shortest _ _ _ _ Ht Hmin).
  - intros Hno. rewrite replace_empty.
    destruct (Js.splitFirst p t) as [[pre post]|] eqn:E; [|reflexivity].
    exfalso. eapply Hno. eapply splitFirst_Some, E.
Qed.

End StringFacts.

(** ** Facts about the monad and the stages *)

Section Stages.

Variable env : Env.

Lemma responses_app (a b : list Event) :
  responses (a ++ b) = responses a ++ responses b.
Proof. apply flat_map_app. Qed.

Lemma cacheWrites_app (a b : list Event) :
  cacheWrites (a ++ b) = cacheWrites a ++ cacheWrites b.
Proof. apply flat_map_app. Qed.

Lemma renderCalls_app (a b : list Event) :
  renderCalls (a ++ b) = renderCalls a ++ renderCalls b.
Proof. apply flat_map_app. Qed.

Lemma handovers_app (a b : list Event) :
  handovers (a ++ b) = handovers a ++ handovers b.
Proof. apply flat_map_app. Qed.

Lemma cacheReads_app (a b : list Event) :
  cacheReads (a ++ b) = cacheReads a ++ cacheReads b.
Proof. apply flat_map_app. Qed.

(** Loading events are none of the observed ones. *)
Lemma loading_silent (evs : list Event) :
  forallb loading evs = true ->
  responses evs = nil /\ cacheWrites evs = nil /\ renderCalls evs = nil /\
  handovers evs = nil /\ cacheReads evs = nil.
Proof.
  induction evs as [|ev evs IH]; intros H; [now repeat split|].
  simpl in H. apply andb_prop in H as [Hev Hevs].
  destruct (IH Hevs) as (? & ? & ? & ? & ?).
  destruct ev; try discriminate; simpl; now repeat split.
Qed.

Lemma loadsOnly_ret {A} (a : A) : loadsOnly (ret a).
Proof.
  intros st r st' H. inversion H; subst. exists nil.
  now rewrite app_nil_r.
Qed.

Lemma loadsOnly_throw {A} (e : Js.Error) : loadsOnly (@throw A e).
Proof.
  intros st r st' H. inversion H; subst. exists nil.
  now rewrite app_nil_r.
Qed.

Lemma loadsOnly_bind {A B} (m : M A) (k : A -> M B) :
  loadsOnly m -> (forall a, loadsOnly (k a)) -> loadsOnly (bind m k).
Proof.
  intros Hm Hk st r st' H. unfold bind in H.
  destruct (m st) as [[a|e] st1] eqn:E.
  - destruct (Hm _ _ _ E) as (evs1 & E1 & L1 & S1 & R1).
    destruct (Hk a _ _ _ H) as (evs2 & E2 & L2 & S2 & R2).
    exists (evs1 ++ evs2). rewrite E2, E1, <- app_assoc, forallb_app, L1, L2.
    repeat split; congruence.
  - inversion H; subst. eauto.
Qed.

Lemma loadsOnly_call {A} (ev : Event) (r : Js.Completion A) :
  loading ev = true -> loadsOnly (call ev r).
Proof.
  intros Hev. unfold call. apply loadsOnly_bind.
  - intros st r' st' H. inversion H; subst. exists (ev :: nil).
    simpl. now rewrite Hev.
  - intros _. destruct r; [apply loadsOnly_ret | apply loadsOnly_throw].
Qed.

Lemma loadsOnly_devServer : loadsOnly (devServer env).
Proof.
  intros st r st' H. unfold devServer in H.
  destruct (vite st).
  - inversion H; subst. exists nil. now rewrite app_nil_r.
  - unfold bind in H.
    destruct (call CreateServer (createServer env) st) as [[v|e] st1] eqn:E;
      destruct (loadsOnly_call CreateServer _ eq_refl _ _ _ E)
        as (evs & E1 & L1 & S1 & R1);
      inversion H; subst; exists evs; now repeat split.
Qed.

(** Lines 62-85 only load. *)
Lemma resolve_loads (url : string) : loadsOnly (resolve env url).
Proof.
  unfold resolve.
  apply loadsOnly_bind; [now apply loadsOnly_call | intros manifest].
  destruct (negb (isProd env)).
  - apply loadsOnly_bind; [apply loadsOnly_devServer | intros v].
    repeat (apply loadsOnly_bind; [now apply loadsOnly_call | intros ?]).
    apply loadsOnly_ret.
  - repeat (apply loadsOnly_bind; [now apply loadsOnly_call | intros ?]).
    apply loadsOnly_ret.
Qed.

End Stages.

Section Pipeline.

Variable env : Env.
Variable req : Request.
Variable v : option Vite.
Variable c : gmap string (string * Z).

(** When the lookup serves no page, [use] goes on with lines 39-131. *)
Lemma use_falls_through :
  missed env req c ->
  use env req (arrive v c) =
  pipeline env req ("ssr:" +:+ originalUrl req) (afterLookup env req v c).
Proof.
  intros Hmiss. unfold use, afterLookup, missed in *.
  destruct (isProd env) eqn:Hprod; [|reflexivity].
  destruct (Hmiss eq_refl) as [Hfault Hfalsy].
  unfold cacheGet, bind, emit. simpl. rewrite Hfault. simpl.
  now rewrite Hfalsy.
Qed.

(** What lines 62-85 leave behind when they start after the lookup. *)
Lemma resolved_state (st1 : State)
    (r : Js.Completion (Js.Value * string * RenderFn)) :
  resolve env (originalUrl req) (afterLookup env req v c) = (r, st1) ->
  headersSent st1 = false /\ store st1 = c /\
  responses (events st1) = nil /\ cacheWrites (events st1) = nil /\
  renderCalls (events st1) = nil /\ handovers (events st1) = nil.
Proof.
  intros H. destruct (resolve_loads env _ _ _ _ H) as (evs & E & L & S & R).
  destruct (loading_silent _ L) as (L1 & L2 & L3 & L4 & _).
  rewrite E, responses_app, cacheWrites_app, renderCalls_app, handovers_app,
    L1, L2, L3, L4, R, S.
  unfold afterLookup; simpl. now destruct (isProd env).
Qed.

(** ** The claims *)

(** C1: when the request reaches the render call and the render entry
    point rejects, exactly one response is sent, with status 200; its
    body is the template with the app outlet taken out: the text before
    the first occurrence of the marker followed by the text after it
    (the template itself when it holds no marker).  No cache entry is
    written, the store is as before, and the request is not handed to
    the next handler. *)
Theorem render_rejection_degrades (st1 : State) (m : Js.Value) (t : string)
    (r : RenderFn) (d : Js.Value) (e : Js.Error) :
  missed env req c ->
  bypass req = false ->
  resolve env (originalUrl req) (afterLookup env req v c)
    = (Js.Normal (m, t, r), st1) ->
  getPrefetchData env (originalUrl req) = Js.Normal d ->
  r (originalUrl req) d m = Js.Throw e ->
  exists st2 body,
    use env req (arrive v c) = (Js.Normal tt, st2) /\
    responses (events st2) = (200, "text/html", body) :: nil /\
    (forall pre post,
       t = pre +:+ "<!--ssr-outlet-->" +:+ post ->
       (forall a b, t = a +:+ "<!--ssr-outlet-->" +:+ b ->
                    (String.length pre <= String.length a)%nat) ->
       body = pre +:+ post) /\
    ((forall a b, t <> a +:+ "<!--ssr-outlet-->" +:+ b) -> body = t) /\
    renderCalls (events st2) = (originalUrl req, d, m) :: nil /\
    cacheWrites (events st2) = nil /\
    store st2 = c /\
    handovers (events st2) = nil.
Proof.
  intros Hmiss Hby Hres Hpre Hrej.
  destruct (resolved_state _ _ Hres) as (Hsent & Hstore & O1 & O2 & O3 & O4).
  destruct (replace_empty_spec "<!--ssr-outlet-->" t) as [Hfirst Hnone].
  rewrite use_falls_through by assumption.
  unfold pipeline. rewrite Hby. unfold tryCatch at 1. unfold bind at 1.
  rewrite Hres. unfold tryCatch, renderPage, call, bind, emit.
  rewrite Hpre. simpl. rewrite Hrej. simpl.
  unfold degrade, console, bind, emit, respond. simpl. rewrite Hsent.
  eexists. exists (Js.replace "<!--ssr-outlet-->" EmptyString t).
  split; [reflexivity|]. simpl.
  rewrite !responses_app, !cacheWrites_app, !renderCalls_app, !handovers_app,
    O1, O2, O3, O4.
  split; [reflexivity|]. split; [exact Hfirst|]. split; [exact Hnone|].
  now repeat split.
Qed.

(** C2, as the code has it: a request on a bypassed path never writes the
    cache, never renders, and leaves the store alone; in development it
    does nothing but hand over to the next handler; in production the
    cache is looked up first, once, and the request is handed over when
    the lookup serves no page. *)
Theorem bypass_hands_over :
  bypass req = true ->
  (let st' := snd (use env req (arrive v c)) in
   cacheWrites (events st') = nil /\ renderCalls (events st') = nil /\
   store st' = c) /\
  (isProd env = false ->
   use env req (arrive v c) =
   (Js.Normal tt,
    {| events := Next None :: nil; vite := v; store := c;
       headersSent := false |})) /\
  (isProd env = true -> missed env req c ->
   use env req (arrive v c) =
   (Js.Normal tt,
    {| events := CacheGet ("ssr:" +:+ originalUrl req) :: Next None :: nil;
       vite := v; store := c; headersSent := false |})).
Proof.
  intros Hby. split; [|split].
  - unfold use, pipeline. rewrite Hby.
    destruct (isProd env); [|now repeat split].
    unfold cacheGet, bind, emit. simpl.
    destruct (cacheFault env _); [now repeat split|]. simpl.
    destruct (truthy _); now repeat split.
  - intros Hdev. unfold use, pipeline. now rewrite Hdev, Hby.
  - intros Hprod Hmiss. rewrite use_falls_through by assumption.
    unfold pipeline, afterLookup. now rewrite Hby, Hprod.
Qed.

(** C3, as the code has it: a rejection of the production cache lookup
    is not caught; the promise of [use] rejects with the error of the
    lookup, nothing is sent and the next handler is not called. *)
Theorem lookup_rejection_propagates (e : Js.Error) :
  isProd env = true ->
  cacheFault env (OpGet ("ssr:" +:+ originalUrl req)) = Some e ->
  use env req (arrive v c) =
  (Js.Throw e,
   {| events := CacheGet ("ssr:" +:+ originalUrl req) :: nil;
      vite := v; store := c; headersSent := false |}).
Proof.
  intros Hprod Hfault. unfold use. rewrite Hprod.
  unfold cacheGet, bind, emit. simpl. now rewrite Hfault.
Qed.

(** C4, as the code has it: the manifest is loaded first in both modes;
    in development a request on a rendered path whose manifest is missing
    never reaches the dev render path: the error of the load goes to the
    console (after the dev server, when there is one, has fixed its stack
    trace) and to the next handler, and nothing is sent. *)
Theorem manifest_required_in_development (e : Js.Error) :
  isProd env = false ->
  bypass req = false ->
  requireJson env (manifestPath env) = Js.Throw e ->
  use env req (arrive v c) =
  (Js.Normal tt,
   {| events :=
        Require (manifestPath env)
          :: match v with
             | Some _ => SsrFixStacktrace e :: nil
             | None => nil
             end
          ++ Console (SsrMiddlewareError e) :: Next (Some e) :: nil;
      vite := v; store := c; headersSent := false |}).
Proof.
  intros Hdev Hby Hman. unfold use, pipeline. rewrite Hdev, Hby.
  unfold tryCatch, resolve, call, bind, emit. fold (manifestPath env).
  rewrite Hman. simpl. unfold fail, console, next, bind, emit. simpl.
  rewrite Hdev. now destruct v.
Qed.

(** C5, as the code has it: a rejection of [getPrefetchData] degrades to
    the client-rendered shell with status 200, like a rejection of the
    render call; a failure of lines 62-85 (manifest, template, module
    resolution) is handed to the next handler and nothing is sent. *)
Theorem failure_routing :
  missed env req c ->
  bypass req = false ->
  (forall st1 m t r e,
     resolve env (originalUrl req) (afterLookup env req v c)
       = (Js.Normal (m, t, r), st1) ->
     getPrefetchData env (originalUrl req) = Js.Throw e ->
     exists st2,
       use env req (arrive v c) = (Js.Normal tt, st2) /\
       responses (events st2)
         = (200, "text/html", Js.replace "<!--ssr-outlet-->" EmptyString t)
             :: nil /\
       handovers (events st2) = nil /\
       renderCalls (events st2) = nil) /\
  (forall st1 e,
     resolve env (originalUrl req) (afterLookup env req v c)
       = (Js.Throw e, st1) ->
     exists st2,
       use env req (arrive v c) = (Js.Normal tt, st2) /\
       responses (events st2) = nil /\
       handovers (events st2) = Some e :: nil /\
       renderCalls (events st2) = nil).
Proof.
  intros Hmiss Hby. split.
  - intros st1 m t r e Hres Hpre.
    destruct (resolved_state _ _ Hres) as (Hsent & Hstore & O1 & O2 & O3 & O4).
    rewrite use_falls_through by assumption.
    unfold pipeline. rewrite Hby. unfold tryCatch at 1. unfold bind at 1.
    rewrite Hres. unfold tryCatch, renderPage, call, bind, emit.
    rewrite Hpre. simpl.
    unfold degrade, console, bind, emit, respond. simpl. rewrite Hsent.
    eexists; split; [reflexivity|]. simpl.
    rewrite !responses_app, !renderCalls_app, !handovers_app, O1, O3, O4.
    now repeat split.
  - intros st1 e Hres.
    destruct (resolved_state _ _ Hres) as (Hsent & Hstore & O1 & O2 & O3 & O4).
    rewrite use_falls_through by assumption.
    unfold pipeline. rewrite Hby. unfold tryCatch at 1. unfold bind at 1.
    rewrite Hres. unfold fail, console, next, bind, emit.
    destruct (vite st1); destruct (negb (isProd env)); simpl;
      (eexists; split; [reflexivity|]); simpl;
      rewrite !responses_app, !renderCalls_app, !handovers_app, O1, O3, O4;
      now repeat split.
Qed.

(** C6, as the code has it: in production, when the lookup at
    [ssr:] + original URL resolves with a non-empty page, that page is
    sent verbatim with status 200 and content type text/html, and nothing
    else happens: no render call, no hand-over, no cache write. *)
Theorem cache_hit_served (page : string) (ttl : Z) :
  isProd env = true ->
  cacheFault env (OpGet ("ssr:" +:+ originalUrl req)) = None ->
  c !! ("ssr:" +:+ originalUrl req) = Some (page, ttl) ->
  page <> EmptyString ->
  use env req (arrive v c) =
  (Js.Normal tt,
   {| events := CacheGet ("ssr:" +:+ originalUrl req)
                  :: Console CacheHit
                  :: Respond 200 "text/html" page :: nil;
      vite := v; store := c; headersSent := true |}).
Proof.
  intros Hprod Hfault Hhit Hpage. unfold use. rewrite Hprod.
  unfold cacheGet, bind, emit. simpl. rewrite Hfault. simpl.
  rewrite Hhit. simpl. now destruct page.
Qed.


End Pipeline.

Section Clearing.

Variable env : Env.

Lemma classic_in (k : string) (keys : list string) :
  In k keys \/ ~ In k keys.
Proof.
  destruct (in_dec string_dec k keys); tauto.
Qed.

Lemma delAll_ok (keys : list string) (st : State) :
  (forall k, In k keys -> cacheFault env (OpDel k) = None) ->
  exists st',
    delAll env keys st = (Js.Normal tt, st') /\
    events st' = events st ++ List.map CacheDel keys /\
    (forall k, In k keys -> store st' !! k = None) /\
    (forall k, ~ In k keys -> store st' !! k = store st !! k).
Proof.
  revert st; induction keys as [|key keys IH]; intros st Hok.
  - exists st. simpl. rewrite app_nil_r. repeat split; tauto.
  - simpl. unfold cacheDel, bind, emit. simpl.
    rewrite (Hok key) by now left. simpl.
    edestruct IH as (st' & Hrun & Hev & Hin & Hout);
      [intros k Hk; apply Hok; now right|].
    rewrite Hrun. exists st'. split; [reflexivity|].
    rewrite Hev. simpl. rewrite <- app_assoc. split; [reflexivity|].
    split; intros k Hk.
    + destruct (classic_in k keys) as [Hin'|Hin']; [now apply Hin|].
      rewrite Hout by assumption. simpl.
      destruct Hk as [->|Hk]; [apply lookup_delete_eq | contradiction].
    + rewrite Hout by tauto. simpl. apply lookup_delete_ne. tauto.
Qed.

Lemma delAll_fault (keys : list string) (st : State) (k : string)
    (e : Js.Error) :
  In k keys -> cacheFault env (OpDel k) = Some e ->
  exists e' st', delAll env keys st = (Js.Throw e', st').
Proof.
  revert st; induction keys as [|key keys IH]; intros st Hin Hf;
    [contradiction|].
  simpl. unfold cacheDel, bind, emit. simpl.
  destruct (cacheFault env (OpDel key)) as [e0|] eqn:E; simpl.
  - eauto.
  - destruct Hin as [->|Hin]; [congruence|].
    edestruct IH as (e' & st' & Hrun); [eassumption | eassumption |].
    rewrite Hrun. eauto.
Qed.

Lemma ssrKeys_spec (st : State) (k : string) :
  In k (ssrKeys st) <->
  Js.startsWith "ssr:" k = true /\ exists x, store st !! k = Some x.
Proof.
  unfold ssrKeys. rewrite filter_In, <- list_elem_of_In, list_elem_of_fmap.
  split.
  - intros [([k' x] & -> & Hin) Hs]. apply elem_of_map_to_list in Hin. eauto.
  - intros [Hs [x Hx]]. split; [|assumption].
    exists (k, x). split; [reflexivity|]. now apply elem_of_map_to_list.
Qed.

(** [clearCache] once the keys are listed. *)
Lemma clearCache_listed (st : State) :
  cacheFault env OpKeys = None ->
  clearCache env st =
  match ssrKeys st with
  | nil =>
      (Js.Normal Js.Undefined,
       after (after st (CacheKeys :: nil)) (Console NoCacheToClear :: nil))
  | _ :: _ =>
      match delAll env (ssrKeys st) (after st (CacheKeys :: nil)) with
      | (Js.Normal _, st1) =>
          (Js.Normal Js.Undefined,
           after st1 (Console (CacheCleared (List.length (ssrKeys st))) :: nil))
      | (Js.Throw e, st1) =>
          (Js.Throw e, after st1 (Console (ClearFailed e) :: nil))
      end
  end.
Proof.
  intros Hkeys.
  unfold clearCache, tryCatch, cacheKeys, bind, emit.
  rewrite Hkeys. cbn [events vite store headersSent].
  fold (ssrKeys st). fold (after st (CacheKeys :: nil)).
  destruct (ssrKeys st) as [|key keys]; [reflexivity|].
  replace (0 <? Z.of_nat (List.length (key :: keys))) with true
    by (symmetry; apply Z.ltb_lt; simpl; lia).
  now destruct (delAll env (key :: keys) (after st (CacheKeys :: nil)))
    as [[[]|e] st1].
Qed.

(** C9, as the code has it: with a store that answers, [clearCache]
    deletes exactly the keys that start with [ssr:] (each once), leaves
    every other entry as it is, writes the number of deleted keys to the
    console and resolves with [undefined]; when listing the keys or a
    deletion fails, it rejects. *)
Theorem clearCache_clears_namespace (st : State) :
  (forall k, In k (ssrKeys st) <->
             Js.startsWith "ssr:" k = true /\ exists x, store st !! k = Some x) /\
  List.NoDup (ssrKeys st) /\
  (cacheFault env OpKeys = None ->
   (forall k, cacheFault env (OpDel k) = None) ->
   exists st',
     clearCache env st = (Js.Normal Js.Undefined, st') /\
     (forall k, store st' !! k =
                if Js.startsWith "ssr:" k then None else store st !! k) /\
     events st' =
       events st ++ CacheKeys :: List.map CacheDel (ssrKeys st) ++
         Console (match ssrKeys st with
                  | nil => NoCacheToClear
                  | _ => CacheCleared (List.length (ssrKeys st))
                  end) :: nil) /\
  (forall e, cacheFault env OpKeys = Some e ->
     clearCache env st =
     (Js.Throw e,
      {| events := events st ++ CacheKeys :: Console (ClearFailed e) :: nil;
         vite := vite st; store := store st;
         headersSent := headersSent st |})) /\
  (cacheFault env OpKeys = None ->
   forall k e, In k (ssrKeys st) -> cacheFault env (OpDel k) = Some e ->
     exists e' st', clearCache env st = (Js.Throw e', st')).
Proof.
  split; [apply ssrKeys_spec|]. split.
  { unfold ssrKeys. apply List.NoDup_filter, NoDup_ListNoDup,
      NoDup_fst_map_to_list. }
  split; [|split].
  - intros Hkeys Hdel. rewrite clearCache_listed by assumption.
    pose proof (ssrKeys_spec st) as Hspec.
    destruct (ssrKeys st) as [|key keys] eqn:E.
    + eexists; split; [reflexivity|]. unfold after. cbn [events store].
      rewrite <- app_assoc. split; [|reflexivity].
      intros k. destruct (Js.startsWith "ssr:" k) eqn:Hs; [|reflexivity].
      destruct (store st !! k) as [x|] eqn:Hx; [|reflexivity].
      exfalso. apply (proj2 (Hspec k)). eauto.
    + set (st0 := after st (CacheKeys :: nil)).
      destruct (delAll_ok (key :: keys) st0 (fun k _ => Hdel k))
        as (st' & Hrun & Hev & Hin & Hout).
      rewrite Hrun.
      eexists; split; [reflexivity|]. split.
      * unfold after at 1. cbn [store].
        intros k. destruct (Js.startsWith "ssr:" k) eqn:Hs.
        -- destruct (store st !! k) as [x|] eqn:Hx.
           ++ apply Hin, Hspec. eauto.
           ++ destruct (classic_in k (key :: keys)) as [Hk|Hk];
                [now apply Hin | now rewrite Hout].
        -- rewrite Hout; [reflexivity|].
           intros Hk. apply Hspec in Hk as [Hk _]. congruence.
      * unfold after at 1. cbn [events]. rewrite Hev.
        unfold st0, after. cbn [events]. now rewrite <- !app_assoc.
  - intros e Hkeys.
    unfold clearCache, tryCatch, cacheKeys, bind, emit.
    rewrite Hkeys. unfold console, throw, emit. cbn [events vite store headersSent].
    now rewrite <- app_assoc.
  - intros Hkeys k e Hin Hf. rewrite clearCache_listed by assumption.
    destruct (ssrKeys st) as [|key keys] eqn:E; [contradiction|].
    edestruct (delAll_fault (key :: keys)) as (e' & st' & Hrun);
      [exact Hin | exact Hf |].
    rewrite Hrun. eauto.
Qed.

End Clearing.

Section Degradation.

(** Removing the first [o] keeps every occurrence of a token that cannot
    overlap with [o]. *)
Lemma replace_empty_keeps (c0 : ascii) (m o t : string) :
  free c0 m = true -> free c0 o = true ->
  agree (String c0 m) (String c0 o) = false ->
  Js.includes (String c0 m) t = true ->
  Js.includes (String c0 m) (Js.replace (String c0 o) EmptyString t) = true.
Proof.
  intros Hm Ho Hag Hinc. rewrite replace_empty.
  destruct (Js.splitFirst (String c0 o) t) as [[pre post]|] eqn:E;
    [|assumption].
  apply splitFirst_Some in E.
  apply includes_elim in Hinc as (a & b & Hab).
  rewrite E in Hab. symmetry in Hab.
  destruct (occurs_apart _ _ _ _ _ _ _ Hm Ho Hag Hab) as [[q ->]|[q ->]].
  - rewrite !append_assoc. apply includes_intro.
  - rewrite <- append_assoc. apply includes_intro.
Qed.

(** C10: the degraded response drops the first occurrence of the app
    outlet and nothing else: the body is the text before that occurrence
    followed by the text after it (the template itself when there is no
    outlet), and each of the other markers that occurs in the template
    still occurs in the body. *)
Theorem degraded_shell_keeps_markers (t : string) (e : Js.Error)
    (st : State) :
  headersSent st = false ->
  exists body,
    degrade t e st =
    (Js.Normal tt,
     {| events := events st ++ Console (SsrRenderError e)
                    :: Respond 200 "text/html" body :: nil;
        vite := vite st; store := store st; headersSent := true |}) /\
    body = Js.replace outlet EmptyString t /\
    (forall pre post,
       Js.splitFirst outlet t = Some (pre, post) ->
       t = pre +:+ outlet +:+ post /\
       (forall a b, t = a +:+ outlet +:+ b ->
                    (String.length pre <= String.length a)%nat) /\
       body = pre +:+ post) /\
    (Js.includes outlet t = false -> body = t) /\
    (forall mk, In mk otherMarkers ->
       Js.includes mk t = true -> Js.includes mk body = true).
Proof.
  intros Hsent. exists (Js.replace outlet EmptyString t).
  split; [|split; [reflexivity|split; [|split]]].
  - unfold degrade, console, bind, emit, respond. simpl. rewrite Hsent.
    now rewrite <- app_assoc.
  - intros pre post Hsplit. split; [now apply splitFirst_Some|]. split.
    + intros a b Hab. eapply splitFirst_first; eassumption.
    + now rewrite replace_empty, Hsplit.
  - unfold Js.includes. rewrite replace_empty.
    now destruct (Js.splitFirst outlet t) as [[? ?]|].
  - intros mk Hin Hinc. simpl in Hin.
    destruct Hin as [<-|[<-|[<-|[<-|[<-|[]]]]]];
      now apply replace_empty_keeps.
Qed.

End Degradation.

(** C8, as the code has it: in the scenario of the specification the
    assembled page holds [<div>A</div>] directly followed by the script
    that assigns the serialised state, and none of the markers
    [<!--preload-links-->], [<html>], [<body>], [<!--ssr-outlet-->],
    [<!--preload-state-->] is left; [</head>] is still there, because
    its substitute ends with it. *)
Theorem scenario_assembled :
  let page := assemble scenarioTemplate scenarioResult scenarioState in
  Js.getProp (ctx scenarioResult) "preloadState" = Js.Normal scenarioState /\
  page = "<html ><head></head><body ><div>A</div>" +:+ scenarioScript
           +:+ "</body></html>" /\
  Js.includes ("<div>A</div>" +:+ scenarioScript) page = true /\
  forallb (fun mk => negb (Js.includes mk page))
    ("<!--preload-links-->" :: "<html>" :: "<body>" :: "<!--ssr-outlet-->"
       :: "<!--preload-state-->" :: nil) = true /\
  Js.includes "</head>" page = true /\
  responses
    (events
       (snd (use (site production noFault (Js.Normal (Js.Obj nil))
                    scenarioTemplate (renders scenarioResult)
                    (Js.Normal Js.Null))
               home (arrive None ∅))))
  = (200, "text/html", page) :: nil.
Proof. vm_compute. repeat split. Qed.

(** ** The claims on concrete deployments *)

Lemma render_rejection_degrades_witness :
  exists st2,
    use rejectingSite home (arrive None ∅) = (Js.Normal tt, st2) /\
    responses (events st2)
      = (200, "text/html",
         "<html><head><!--preload-links--></head><body><div id=app></div><!--preload-state--></body></html>")
          :: nil /\
    renderCalls (events st2) = ("/", Js.Null, Js.Obj nil) :: nil /\
    cacheWrites (events st2) = nil /\
    store st2 = ∅ /\
    handovers (events st2) = nil.
Proof.
  destruct (render_rejection_degrades rejectingSite home None ∅
              (snd (resolve rejectingSite "/"
                      (afterLookup rejectingSite home None ∅)))
              (Js.Obj nil) shell (rejects "render failed") Js.Null
              "render failed")
    as (st2 & body & Hrun & Hresp & Hfirst & _ & Hrest);
    [intros _; split; reflexivity | reflexivity..|].
  exists st2. split; [exact Hrun|]. split; [|exact Hrest].
  rewrite Hresp.
  rewrite (Hfirst "<html><head><!--preload-links--></head><body><div id=app>"
                  "</div><!--preload-state--></body></html>");
    [reflexivity | reflexivity |].
  intros a b Hab.
  apply (splitFirst_first "<!--ssr-outlet-->" shell _
           "</div><!--preload-state--></body></html>" a b);
    [reflexivity | exact Hab].
Defined.

Lemma bypass_hands_over_witness :
  use productionSite apiUsers (arrive None ∅) =
  (Js.Normal tt,
   {| events := CacheGet "ssr:/api/users?page=2" :: Next None :: nil;
      vite := None; store := ∅; headersSent := false |}).
Proof.
  apply (proj2 (proj2 (bypass_hands_over productionSite apiUsers None ∅
                         eq_refl)));
    [reflexivity | intros _; split; reflexivity].
Defined.

(** C2 fails on the code: in production the cache is read before the
    path is looked at. *)
Lemma bypass_reads_cache_in_production :
  bypass apiUsers = true /\
  cacheReads (events (snd (use productionSite apiUsers (arrive None ∅))))
    = "ssr:/api/users?page=2" :: nil.
Proof. split; reflexivity. Qed.

Lemma lookup_rejection_propagates_witness :
  use unreachableCacheSite home (arrive None ∅) =
  (Js.Throw "ECONNREFUSED",
   {| events := CacheGet "ssr:/" :: nil;
      vite := None; store := ∅; headersSent := false |}).
Proof.
  apply (lookup_rejection_propagates unreachableCacheSite home None ∅);
    reflexivity.
Defined.

(** C3 fails on the code: the rejected lookup ends the request with a
    rejected promise, no response and no hand-over. *)
Lemma lookup_rejection_unhandled :
  let run := use unreachableCacheSite home (arrive None ∅) in
  fst run = Js.Throw "ECONNREFUSED" /\
  responses (events (snd run)) = nil /\
  handovers (events (snd run)) = nil /\
  renderCalls (events (snd run)) = nil.
Proof. repeat split. Qed.

Lemma manifest_required_in_development_witness :
  use unbuiltDevSite home (arrive None ∅) =
  (Js.Normal tt,
   {| events :=
        Require (manifestPath unbuiltDevSite)
          :: nil ++ Console (SsrMiddlewareError "MODULE_NOT_FOUND")
          :: Next (Some "MODULE_NOT_FOUND") :: nil;
      vite := None; store := ∅; headersSent := false |}).
Proof.
  apply (manifest_required_in_development unbuiltDevSite home None ∅);
    reflexivity.
Defined.

(** C4 fails on the code: in development, without a manifest, the render
    path is not reached. *)
Lemma development_without_manifest_fails :
  isProd unbuiltDevSite = false /\
  let st := snd (use unbuiltDevSite home (arrive None ∅)) in
  renderCalls (events st) = nil /\
  responses (events st) = nil /\
  handovers (events st) = Some "MODULE_NOT_FOUND" :: nil.
Proof. repeat split. Qed.

Lemma failure_routing_witness :
  exists st2,
    use prefetchDownSite home (arrive None ∅) = (Js.Normal tt, st2) /\
    responses (events st2)
      = (200, "text/html", Js.replace "<!--ssr-outlet-->" EmptyString shell)
          :: nil /\
    handovers (events st2) = nil /\
    renderCalls (events st2) = nil.
Proof.
  destruct (failure_routing prefetchDownSite home None ∅) as [Hpre _];
    [intros _; split; reflexivity | reflexivity |].
  apply (Hpre (snd (resolve prefetchDownSite "/"
                      (afterLookup prefetchDownSite home None ∅)))
              (Js.Obj nil) shell (renders rankPage) "prefetch failed");
    reflexivity.
Defined.

(** C5 fails on the code: a rejected prefetch is answered with the
    degraded shell, not handed to the next handler. *)
Lemma prefetch_rejection_degrades :
  let st := snd (use prefetchDownSite home (arrive None ∅)) in
  responses (events st)
    = (200, "text/html", Js.replace "<!--ssr-outlet-->" EmptyString shell)
        :: nil /\
  handovers (events st) = nil.
Proof. split; reflexivity. Qed.

Lemma cache_hit_served_witness :
  use productionSite home (arrive None cachedHome) =
  (Js.Normal tt,
   {| events := CacheGet "ssr:/" :: Console CacheHit
                  :: Respond 200 "text/html" "<html>cached</html>" :: nil;
      vite := None; store := cachedHome; headersSent := true |}).
Proof.
  apply (cache_hit_served productionSite home None cachedHome
           "<html>cached</html>" 86400000);
    [reflexivity | reflexivity | reflexivity | discriminate].
Defined.

(** C6 fails on the code: an entry whose value is the empty string (the
    middleware writes one when the template file is empty) is not served;
    the page is rendered again. *)
Lemma empty_entry_is_rendered_again :
  store (snd (use blankSite home (arrive None ∅))) = emptyEntry /\
  emptyEntry !! "ssr:/" = Some (EmptyString, 86400000) /\
  let st := snd (use blankSite home (arrive None emptyEntry)) in
  renderCalls (events st) = ("/", Js.Null, Js.Obj nil) :: nil /\
  cacheReads (events st) = "ssr:/" :: nil /\
  cacheWrites (events st) = ("ssr:/", EmptyString, 86400000) :: nil.
Proof. vm_compute. repeat split. Qed.



(** C8 fails on the code: the marker [</head>] is still in the page. *)
Lemma scenario_keeps_head_marker :
  Js.includes "</head>"
    (assemble scenarioTemplate scenarioResult scenarioState) = true.
Proof. reflexivity. Qed.

Lemma clearCache_clears_namespace_witness :
  exists st',
    clearCache productionSite (arrive None threeKeys)
      = (Js.Normal Js.Undefined, st') /\
    (forall k, store st' !! k =
               if Js.startsWith "ssr:" k then None else threeKeys !! k) /\
    events st' =
      CacheKeys :: CacheDel "ssr:/a" :: CacheDel "ssr:/b"
        :: Console (CacheCleared 2) :: nil.
Proof.
  apply (proj1 (proj2 (proj2 (clearCache_clears_namespace productionSite
                                (arrive None threeKeys)))));
    reflexivity.
Defined.

(** C9 fails on the code: the count goes to the console; the caller gets
    [undefined]. *)
Lemma clearCache_returns_nothing :
  let run := clearCache productionSite (arrive None threeKeys) in
  fst run = Js.Normal Js.Undefined /\
  fst run <> Js.Normal (Js.Num 2) /\
  events (snd run) =
    CacheKeys :: CacheDel "ssr:/a" :: CacheDel "ssr:/b"
      :: Console (CacheCleared 2) :: nil /\
  store (snd run) = <["other:/c" := ("c", 1000)]> ∅.
Proof. vm_compute. repeat split. discriminate. Qed.

Lemma degraded_shell_keeps_markers_witness :
  exists body,
    degrade shell "render failed" (arrive None ∅) =
    (Js.Normal tt,
     {| events := Console (SsrRenderError "render failed")
                    :: Respond 200 "text/html" body :: nil;
        vite := None; store := ∅; headersSent := true |}) /\
    body = "<html><head><!--preload-links--></head><body><div id=app></div><!--preload-state--></body></html>" /\
    (forall mk, In mk otherMarkers ->
       Js.includes mk shell = true -> Js.includes mk body = true).
Proof.
  destruct (degraded_shell_keeps_markers shell "render failed"
              (arrive None ∅) eq_refl)
    as (body & Hrun & Hbody & _ & _ & Hkeep).
  exists body. split; [exact Hrun | split; [exact Hbody | exact Hkeep]].
Defined.

(** ** Every run of [use]

    The facts below hold for every environment, request, dev-server
    handle and store: they are read off all the paths through [use]. *)

(** One step of a run: decide the next call whose result is open. *)
Ltac run_step :=
  cbn [events vite store headersSent fst snd negb];
  match goal with
  | |- context [isProd ?e] => destruct (isProd e) eqn:?
  | |- context [match ?x with _ => _ end] =>
      lazymatch x with
      | context [match _ with _ => _ end] => fail
      | _ => destruct x eqn:?
      end
  end.

Ltac run_cases :=
  unfold use, pipeline, tryCatch, resolve, renderPage, degrade, fail,
    devServer, cacheGet, cacheSet, respond, console, next, call, bind, emit,
    ret, throw, arrive;
  repeat run_step;
  cbn [events vite store headersSent fst snd negb app].

(** Joining names that are not [..] appends them. *)
Lemma join_plain (base : Path) (segs : list string) :
  forallb (fun s => negb (String.eqb s "..")) segs = true ->
  join base segs = base ++ segs.
Proof.
  revert base; induction segs as [|s segs IH]; intros base H.
  - simpl. now rewrite app_nil_r.
  - cbn [forallb] in H. apply andb_prop in H as [Hs Hsegs].
    cbn [join]. destruct (String.eqb s ".."); [discriminate|].
    rewrite IH by assumption. now rewrite <- app_assoc.
Qed.

Section EveryRun.

Variable env : Env.
Variable req : Request.
Variable v : option Vite.
Variable c : gmap string (string * Z).

(** X1: the promise of [use] rejects only when the production cache
    lookup rejects; every other failure is caught. *)
Theorem use_rejects_only_on_lookup (e : Js.Error) :
  fst (use env req (arrive v c)) = Js.Throw e ->
  isProd env = true /\
  cacheFault env (OpGet ("ssr:" +:+ originalUrl req)) = Some e /\
  snd (use env req (arrive v c)) =
  {| events := CacheGet ("ssr:" +:+ originalUrl req) :: nil;
     vite := v; store := c; headersSent := false |}.
Proof.
  run_cases; intros H; try discriminate H.
  inversion H; subst. now repeat split.
Qed.

(** X2: when the promise of [use] resolves, the request was answered or
    handed to the next handler. *)
Theorem use_answers_or_hands_over :
  fst (use env req (arrive v c)) = Js.Normal tt ->
  let evs := events (snd (use env req (arrive v c))) in
  (exists body, responses evs = (200, "text/html", body) :: nil) \/
  (exists err, handovers evs = err :: nil).
Proof.
  run_cases; intros H; try discriminate H;
    first [ left; eexists; reflexivity | right; eexists; reflexivity ].
Qed.

(** X3: a request is answered at most once, and every answer has status
    200 and content type text/html. *)
Theorem responds_at_most_once :
  let st' := snd (use env req (arrive v c)) in
  (responses (events st') = nil /\ headersSent st' = false) \/
  (exists body, responses (events st') = (200, "text/html", body) :: nil /\
                headersSent st' = true).
Proof.
  intros st'. subst st'. run_cases;
    first [ left; split; reflexivity | right; eexists; split; reflexivity ].
Qed.

(** X4: a request is handed to the next handler at most once: without an
    error only on a bypassed path and then unanswered, with an error only
    on a path that is not bypassed. *)
Theorem hands_over_at_most_once :
  let evs := events (snd (use env req (arrive v c))) in
  handovers evs = nil \/
  (handovers evs = None :: nil /\ bypass req = true /\ responses evs = nil) \/
  (exists e, handovers evs = Some e :: nil /\ bypass req = false).
Proof.
  intros evs. subst evs. run_cases;
    first [ left; reflexivity
          | right; left; repeat split; reflexivity
          | right; right; eexists; split; reflexivity ].
Qed.

(** X5: in development the cache is never used: no call on the cache
    manager, and the store is as before. *)
Theorem development_never_uses_cache :
  isProd env = false ->
  let st' := snd (use env req (arrive v c)) in
  store st' = c /\
  forallb (fun ev => negb (cacheUse ev)) (events st') = true.
Proof.
  intros Hdev st'. subst st'. run_cases; try congruence; now split.
Qed.

(** X6: in production the dev module server is never used: it is not
    created, not called, and the handle of the middleware is as before. *)
Theorem production_never_uses_dev_server :
  isProd env = true ->
  let st' := snd (use env req (arrive v c)) in
  vite st' = v /\
  forallb (fun ev => negb (devServerUse ev)) (events st') = true.
Proof.
  intros Hprod st'. subst st'. run_cases; try congruence; now split.
Qed.

(** X9: the cache is written at most once per request, only in
    production, only at the key of the request, with the page that was
    sent and a time-to-live of 86 400 000 ms; the store changes in no
    other way. *)
Theorem cache_written_only_with_sent_page :
  let st' := snd (use env req (arrive v c)) in
  let key := "ssr:" +:+ originalUrl req in
  (cacheWrites (events st') = nil /\ store st' = c) \/
  (exists page,
     cacheWrites (events st') = (key, page, 86400000) :: nil /\
     responses (events st') = (200, "text/html", page) :: nil /\
     isProd env = true /\
     (store st' = c \/ store st' = <[key := (page, 86400000)]> c)).
Proof.
  intros st' key. subst st' key. run_cases;
    first [ left; split; reflexivity
          | right; eexists; repeat split;
            first [ left; reflexivity | right; reflexivity ] ].
Qed.

(** X10: the render entry point is called at most once per request, only
    on a path that is not bypassed, with the original URL, the data the
    prefetch returned for that URL and the manifest that was loaded. *)
Theorem render_called_with_prefetched_data :
  let evs := events (snd (use env req (arrive v c))) in
  renderCalls evs = nil \/
  (exists d m,
     renderCalls evs = (originalUrl req, d, m) :: nil /\
     getPrefetchData env (originalUrl req) = Js.Normal d /\
     requireJson env (manifestPath env) = Js.Normal m /\
     bypass req = false).
Proof.
  intros evs. subst evs. unfold manifestPath. run_cases;
    first [ left; reflexivity
          | right; do 2 eexists; repeat split; reflexivity ].
Qed.

(** X11: the build output is the directory [dist] of the client
    directory, and every file or module a request reads lies under the
    client directory. *)
Theorem reads_stay_under_client :
  distPath env = srcPath env ++ "dist" :: nil /\
  Forall (underClient env) (events (snd (use env req (arrive v c)))).
Proof.
  split; [reflexivity|].
  run_cases;
    repeat (apply List.Forall_cons;
            [ cbn [underClient];
              first [ exact I
                    | change (distPath env) with (srcPath env ++ "dist" :: nil);
                      rewrite join_plain by reflexivity;
                      rewrite <- ?app_assoc; eexists; reflexivity ]
            | ]);
    apply List.Forall_nil.
Qed.

(** X23: a request on a bypassed path loads nothing: no file is read, no
    module is required, the dev module server is neither created nor
    called, and its handle is as before. *)
Theorem bypass_loads_nothing :
  bypass req = true ->
  let st' := snd (use env req (arrive v c)) in
  vite st' = v /\
  forallb (fun ev => negb (loading ev || devServerUse ev)) (events st') = true.
Proof.
  intros Hby st'. subst st'. run_cases; try congruence; now split.
Qed.

End EveryRun.

Section DevServer.

Variable env : Env.
Variable req : Request.
Variable c : gmap string (string * Z).

(** X7: a dev module server that exists is kept: no request creates
    another one or drops the handle. *)
Theorem dev_server_kept (v0 : Vite) :
  let st' := snd (use env req (arrive (Some v0) c)) in
  vite st' = Some v0 /\ serverCreations (events st') = 0%nat.
Proof.
  intros st'. subst st'. run_cases; now split.
Qed.

(** X8: in development, the first request on a rendered path whose
    manifest loads creates the dev module server, once: when the creation
    succeeds the handle is kept whatever happens later in the request;
    when it fails there is still no handle, and the error goes to the
    next handler without a response. *)
Theorem dev_server_created_on_first_use (m : Js.Value) :
  isProd env = false ->
  bypass req = false ->
  requireJson env (manifestPath env) = Js.Normal m ->
  let st' := snd (use env req (arrive None c)) in
  serverCreations (events st') = 1%nat /\
  match createServer env with
  | Js.Normal v' => vite st' = Some v'
  | Js.Throw e =>
      vite st' = None /\ handovers (events st') = Some e :: nil /\
      responses (events st') = nil
  end.
Proof.
  intros Hdev Hby Hman st'. subst st'. unfold manifestPath in Hman.
  run_cases; try congruence; now repeat split.
Qed.

End DevServer.

Section EdgeRuns.

Variable env : Env.
Variable req : Request.
Variable v : option Vite.
Variable c : gmap string (string * Z).

(** X12: when the render call resolves with a result whose [ctx] is
    [undefined] or [null], reading [ctx.preloadState] throws inside the
    inner [try]: the request is answered with the degraded shell, and
    nothing is cached. *)
Theorem nullish_ctx_degrades (st1 : State) (m : Js.Value) (t : string)
    (r : RenderFn) (d : Js.Value) (rr : RenderResult) :
  missed env req c ->
  bypass req = false ->
  resolve env (originalUrl req) (afterLookup env req v c)
    = (Js.Normal (m, t, r), st1) ->
  getPrefetchData env (originalUrl req) = Js.Normal d ->
  r (originalUrl req) d m = Js.Normal rr ->
  ctx rr = Js.Undefined \/ ctx rr = Js.Null ->
  exists st2,
    use env req (arrive v c) = (Js.Normal tt, st2) /\
    responses (events st2)
      = (200, "text/html", Js.replace "<!--ssr-outlet-->" EmptyString t) :: nil /\
    renderCalls (events st2) = (originalUrl req, d, m) :: nil /\
    cacheWrites (events st2) = nil /\
    store st2 = c /\
    handovers (events st2) = nil.
Proof.
  intros Hmiss Hby Hres Hpre Hok Hctx.
  destruct (resolved_state _ _ _ _ _ _ Hres)
    as (Hsent & Hstore & O1 & O2 & O3 & O4).
  rewrite use_falls_through by assumption.
  unfold pipeline. rewrite Hby. unfold tryCatch at 1. unfold bind at 1.
  rewrite Hres. unfold tryCatch, renderPage, call, bind, emit.
  rewrite Hpre. simpl. rewrite Hok. simpl.
  assert (Hthrow : exists e, Js.getProp (ctx rr) "preloadState" = Js.Throw e)
    by (destruct Hctx as [-> | ->]; eexists; reflexivity).
  destruct Hthrow as [e ->].
  unfold degrade, console, bind, emit, respond. simpl. rewrite Hsent.
  eexists; split; [reflexivity|]. simpl.
  rewrite !responses_app, !cacheWrites_app, !renderCalls_app, !handovers_app,
    O1, O2, O3, O4.
  now repeat split.
Qed.

(** X13: in production, when the write to the cache rejects after the
    page was sent, the inner [catch] tries to answer again; that throws
    on the response already sent, and the outer [catch] hands this error
    to the next handler.  The page that was sent stays the only answer
    and the store is as before. *)
Theorem write_failure_after_response (st1 : State) (m : Js.Value)
    (t : string) (r : RenderFn) (d : Js.Value) (rr : RenderResult)
    (ps : Js.Value) (e : Js.Error) :
  isProd env = true ->
  missed env req c ->
  bypass req = false ->
  resolve env (originalUrl req) (afterLookup env req v c)
    = (Js.Normal (m, t, r), st1) ->
  getPrefetchData env (originalUrl req) = Js.Normal d ->
  r (originalUrl req) d m = Js.Normal rr ->
  Js.getProp (ctx rr) "preloadState" = Js.Normal ps ->
  cacheFault env (OpSet ("ssr:" +:+ originalUrl req)) = Some e ->
  let key := "ssr:" +:+ originalUrl req in
  let page := assemble t rr ps in
  use env req (arrive v c) =
  (Js.Normal tt,
   {| events :=
        events st1 ++
          GetPrefetchData (originalUrl req) :: Render (originalUrl req) d m
            :: Respond 200 "text/html" page :: CacheSet key page 86400000
            :: Console (SsrRenderError e)
            :: Console (SsrMiddlewareError "ERR_HTTP_HEADERS_SENT")
            :: Next (Some "ERR_HTTP_HEADERS_SENT") :: nil;
      vite := vite st1; store := c; headersSent := true |}).
Proof.
  intros Hprod Hmiss Hby Hres Hpre Hok Hctx Hset key page. subst key page.
  destruct (resolved_state _ _ _ _ _ _ Hres)
    as (Hsent & Hstore & O1 & O2 & O3 & O4).
  rewrite use_falls_through by assumption.
  unfold pipeline. rewrite Hby. unfold tryCatch at 1. unfold bind at 1.
  rewrite Hres. unfold tryCatch, renderPage, call, bind, emit.
  rewrite Hpre. simpl. rewrite Hok. simpl. rewrite Hctx.
  unfold respond. simpl. rewrite Hsent, Hprod.
  unfold cacheSet, bind, emit. simpl. rewrite Hset.
  simpl. unfold degrade, console, bind, emit, respond. simpl.
  unfold fail, console, next, bind, emit. simpl. rewrite Hprod, Hstore.
  destruct (vite st1); simpl; now rewrite <- !app_assoc.
Qed.

(** X14: what a production render caches is what the next request for
    the same original URL gets: when the store accepted the write and the
    page is not empty, that request is answered with the same page from
    the cache, whatever its path, with no render call. *)
Theorem render_cache_round_trip (st1 : State) (m : Js.Value) (t : string)
    (r : RenderFn) (d : Js.Value) (rr : RenderResult) (ps : Js.Value)
    (req' : Request) (v' : option Vite) :
  isProd env = true ->
  missed env req c ->
  bypass req = false ->
  resolve env (originalUrl req) (afterLookup env req v c)
    = (Js.Normal (m, t, r), st1) ->
  getPrefetchData env (originalUrl req) = Js.Normal d ->
  r (originalUrl req) d m = Js.Normal rr ->
  Js.getProp (ctx rr) "preloadState" = Js.Normal ps ->
  cacheFault env (OpSet ("ssr:" +:+ originalUrl req)) = None ->
  assemble t rr ps <> EmptyString ->
  originalUrl req' = originalUrl req ->
  let st2 := snd (use env req (arrive v c)) in
  use env req' (arrive v' (store st2)) =
  (Js.Normal tt,
   {| events := CacheGet ("ssr:" +:+ originalUrl req)
                  :: Console CacheHit
                  :: Respond 200 "text/html" (assemble t rr ps) :: nil;
      vite := v'; store := store st2; headersSent := true |}).
Proof.
  intros Hprod Hmiss Hby Hres Hpre Hok Hctx Hset Hpage Hurl st2.
  destruct (resolved_state _ _ _ _ _ _ Hres)
    as (Hsent & Hstore & O1 & O2 & O3 & O4).
  destruct (Hmiss Hprod) as [Hget _].
  assert (Hst2 : store st2 =
                 <["ssr:" +:+ originalUrl req :=
                     (assemble t rr ps, 86400000)]> c).
  { subst st2. rewrite use_falls_through by assumption.
    unfold pipeline. rewrite Hby. unfold tryCatch at 1. unfold bind at 1.
    rewrite Hres. unfold tryCatch, renderPage, call, bind, emit.
    rewrite Hpre. simpl. rewrite Hok. simpl. rewrite Hctx.
    unfold respond. simpl. rewrite Hsent, Hprod.
    unfold cacheSet, bind, emit. simpl. rewrite Hset. simpl.
    now rewrite Hstore. }
  assert (Hlook : store st2 !! ("ssr:" +:+ originalUrl req)
                  = Some (assemble t rr ps, 86400000))
    by (rewrite Hst2; apply lookup_insert_eq).
  clearbody st2.
  unfold use. rewrite Hprod, Hurl.
  unfold cacheGet, bind, emit. simpl. rewrite Hget. simpl.
  rewrite Hlook. simpl.
  destruct (assemble t rr ps) eqn:E; [congruence|reflexivity].
Qed.

End EdgeRuns.

(** ** The path test *)

(** X15: a path is bypassed exactly when it begins with [/api], begins
    with [/service], or holds [/assets] somewhere; the tests are on
    characters, not on path segments. *)
Theorem bypass_characterisation (req : Request) :
  bypass req = true <->
  (exists rest, path req = "/api" +:+ rest) \/
  (exists rest, path req = "/service" +:+ rest) \/
  (exists before rest, path req = before +:+ "/assets" +:+ rest).
Proof.
  unfold bypass. rewrite !orb_true_iff. split.
  - intros [[H|H]|H].
    + left. eexists. now apply startsWith_split.
    + right; left. eexists. now apply startsWith_split.
    + right; right. now apply includes_elim.
  - intros [[rest H]|[[rest H]|(before & rest & H)]]; rewrite H.
    + left; left. apply startsWith_append.
    + left; right. apply startsWith_append.
    + right. apply includes_intro.
Qed.

(** ** More on clearing the cache *)

Section ClearingMore.

Variable env : Env.

Lemma delAll_lookup (keys : list string) (st : State) (k : string) :
  store (snd (delAll env keys st)) !! k =
  if existsb (String.eqb k) keys
     && match cacheFault env (OpDel k) with None => true | Some _ => false end
  then None else store st !! k.
Proof.
  revert st; induction keys as [|key keys IH]; intros st; [reflexivity|].
  assert (Hsnd : snd (delAll env (key :: keys) st) =
                 snd (delAll env keys (snd (cacheDel env key st)))).
  { cbn [delAll]. now destruct (cacheDel env key st) as [[[]|e] st']. }
  rewrite Hsnd, IH. cbn [existsb].
  unfold cacheDel, bind, emit. cbn [events vite store headersSent].
  destruct (String.eqb_spec k key) as [->|Hne].
  - destruct (cacheFault env (OpDel key)) as [e|]; cbn [orb andb snd store].
    + now rewrite !andb_false_r.
    + rewrite andb_true_r, lookup_delete_eq.
      now destruct (existsb (String.eqb key) keys).
  - cbn [orb].
    assert (Hst : store (snd (match cacheFault env (OpDel key) with
                              | Some e => throw e
                              | None => fun st0 : State =>
                                  (Js.Normal tt,
                                   {| events := events st0; vite := vite st0;
                                      store := delete key (store st0);
                                      headersSent := headersSent st0 |})
                              end
                              {| events := events st ++ CacheDel key :: nil;
                                 vite := vite st; store := store st;
                                 headersSent := headersSent st |})) !! k
                  = store st !! k).
    { destruct (cacheFault env (OpDel key)); cbn [throw snd store];
        [reflexivity | now apply lookup_delete_ne]. }
    now rewrite Hst.
Qed.

Lemma delAll_frame (keys : list string) (st : State) :
  vite (snd (delAll env keys st)) = vite st /\
  headersSent (snd (delAll env keys st)) = headersSent st.
Proof.
  revert st; induction keys as [|key keys IH]; intros st; [now split|].
  cbn [delAll]. unfold cacheDel, bind, emit.
  cbn [events vite store headersSent].
  destruct (cacheFault env (OpDel key)); cbn [throw snd];
    match goal with
    | |- context [delAll env keys ?s] =>
        destruct (IH s) as [Hv Hs];
        destruct (delAll env keys s) as [[[]|e'] st'] eqn:E
    end; cbn [snd] in *; now split.
Qed.

Lemma existsb_ssrKeys (st : State) (k : string) :
  existsb (String.eqb k) (ssrKeys st) = true <->
  Js.startsWith "ssr:" k = true /\ exists x, store st !! k = Some x.
Proof.
  rewrite existsb_exists, <- ssrKeys_spec. split.
  - intros (k' & Hin & Heq). apply String.eqb_eq in Heq. now subst.
  - intros Hin. exists k. split; [assumption | apply String.eqb_refl].
Qed.

(** The store after [clearCache], whether it resolves or rejects. *)
Lemma clearCache_store (st : State) (k : string) :
  cacheFault env OpKeys = None ->
  store (snd (clearCache env st)) !! k =
  if Js.startsWith "ssr:" k
     && match cacheFault env (OpDel k) with None => true | Some _ => false end
  then None else store st !! k.
Proof.
  intros Hkeys. rewrite clearCache_listed by assumption.
  pose proof (existsb_ssrKeys st k) as Hex.
  assert (Hgoal : store (snd (delAll env (ssrKeys st)
                                (after st (CacheKeys :: nil)))) !! k =
                  if Js.startsWith "ssr:" k
                     && match cacheFault env (OpDel k) with
                        | None => true | Some _ => false end
                  then None else store st !! k).
  { rewrite delAll_lookup. cbn [after store].
    destruct (existsb (String.eqb k) (ssrKeys st)) eqn:E.
    - destruct (proj1 Hex eq_refl) as [-> _]. reflexivity.
    - cbn [andb]. destruct (Js.startsWith "ssr:" k) eqn:Hs; [|reflexivity].
      destruct (store st !! k) as [x|] eqn:Hx.
      + assert (false = true) by (apply Hex; eauto).
        discriminate.
      + now destruct (_ && _). }
  destruct (ssrKeys st) as [|key keys] eqn:E.
  - rewrite <- Hgoal. reflexivity.
  - rewrite <- Hgoal.
    now destruct (delAll env (key :: keys) (after st (CacheKeys :: nil)))
      as [[[]|e] st1].
Qed.

(** X16: clearing twice: after a clearing that met no failure, no key
    with the prefix is left, and a second clearing deletes nothing and
    says so. *)
Theorem clearCache_twice (st : State) :
  cacheFault env OpKeys = None ->
  (forall k, cacheFault env (OpDel k) = None) ->
  let st1 := snd (clearCache env st) in
  ssrKeys st1 = nil /\
  clearCache env st1 =
  (Js.Normal Js.Undefined,
   after (after st1 (CacheKeys :: nil)) (Console NoCacheToClear :: nil)).
Proof.
  intros Hkeys Hdel st1.
  assert (Hnil : ssrKeys st1 = nil).
  { destruct (ssrKeys st1) as [|k ks] eqn:E; [reflexivity|].
    assert (Hin : In k (ssrKeys st1)) by (rewrite E; now left).
    apply ssrKeys_spec in Hin as [Hs [x Hx]].
    unfold st1 in Hx. rewrite clearCache_store in Hx by assumption.
    rewrite Hs, Hdel in Hx. discriminate. }
  split; [assumption|].
  rewrite clearCache_listed by assumption. now rewrite Hnil.
Qed.

(** X17: a deletion that fails stops none of the others: whether the
    clearing resolves or rejects, every key with the prefix whose
    deletion did not fail is gone afterwards, every other entry is as
    before, and neither the dev-server handle nor the response is
    touched. *)
Theorem clearCache_partial_failure (st : State) :
  cacheFault env OpKeys = None ->
  let st' := snd (clearCache env st) in
  (forall k,
     store st' !! k =
     if Js.startsWith "ssr:" k
        && match cacheFault env (OpDel k) with None => true | Some _ => false end
     then None else store st !! k) /\
  vite st' = vite st /\ headersSent st' = headersSent st.
Proof.
  intros Hkeys st'. split.
  - intros k. now apply clearCache_store.
  - unfold st'. rewrite clearCache_listed by assumption.
    destruct (ssrKeys st) as [|key keys]; [now split|].
    destruct (delAll_frame (key :: keys) (after st (CacheKeys :: nil)))
      as [Hv Hs].
    destruct (delAll env (key :: keys) (after st (CacheKeys :: nil)))
      as [[[]|e] st1]; cbn [snd after vite headersSent] in *; now split.
Qed.

End ClearingMore.

(** ** More on the assembly of the page *)

Section Assembly.

Lemma replace_absent (p repl s : string) :
  Js.includes p s = false -> Js.replace p repl s = s.
Proof.
  unfold Js.includes, Js.replace.
  now destruct (Js.splitFirst p s) as [[? ?]|].
Qed.

Lemma includes_split (p s : string) :
  Js.includes p s = true ->
  exists pre post, Js.splitFirst p s = Some (pre, post).
Proof.
  unfold Js.includes.
  destruct (Js.splitFirst p s) as [[pre post]|]; [eauto | discriminate].
Qed.

(** A text without [$] expands to itself. *)
Lemma getSubstitution_free (m pre post a r : string) :
  free "$" a = true ->
  Js.getSubstitution m pre post (a +:+ r) =
  a +:+ Js.getSubstitution m pre post r.
Proof.
  induction a as [|x a IH]; intros H; [reflexivity|].
  cbn [free] in H. apply andb_prop in H as [Hx Ha].
  rewrite !append_cons. cbn [Js.getSubstitution].
  apply negb_true_iff in Hx. rewrite Hx. now rewrite IH.
Qed.

(** Replacing the first [o] by anything keeps every occurrence of a
    token that cannot overlap with [o]. *)
Lemma replace_keeps (c0 : ascii) (m o repl t : string) :
  free c0 m = true -> free c0 o = true ->
  agree (String c0 m) (String c0 o) = false ->
  Js.includes (String c0 m) t = true ->
  Js.includes (String c0 m) (Js.replace (String c0 o) repl t) = true.
Proof.
  intros Hm Ho Hag Hinc. unfold Js.replace.
  destruct (Js.splitFirst (String c0 o) t) as [[pre post]|] eqn:E;
    [|assumption].
  apply splitFirst_Some in E.
  apply includes_elim in Hinc as (a & b & Hab).
  rewrite E in Hab. symmetry in Hab.
  destruct (occurs_apart _ _ _ _ _ _ _ Hm Ho Hag Hab) as [[q ->]|[q ->]].
  - rewrite !append_assoc. apply includes_intro.
  - set (G := Js.getSubstitution _ _ _ _).
    rewrite <- (append_assoc G q), <- (append_assoc pre).
    apply includes_intro.
Qed.

(** The expansion of a text that ends with [</head>] ends with it. *)
Lemma getSubstitution_head (m pre post : string) (n : nat) (a : string) :
  (String.length a <= n)%nat ->
  exists x, Js.getSubstitution m pre post (a +:+ "</head>") = x +:+ "</head>".
Proof.
  revert a; induction n as [|n IH]; intros a Hlen.
  - destruct a; [|simpl in Hlen; lia]. now exists EmptyString.
  - destruct a as [|x a]; [now exists EmptyString|].
    simpl in Hlen. rewrite append_cons. cbn [Js.getSubstitution].
    destruct (Ascii.eqb x "$") eqn:Ex.
    + destruct a as [|y a].
      * exists (String x EmptyString). reflexivity.
      * rewrite append_cons. simpl in Hlen.
        destruct (IH a ltac:(lia)) as [z Hz].
        destruct (IH (String y a) ltac:(simpl; lia)) as [z' Hz'].
        rewrite append_cons in Hz'.
        repeat match goal with
               | |- context [if Ascii.eqb y ?ch then _ else _] =>
                   destruct (Ascii.eqb y ch)
               end;
          rewrite ?Hz, ?Hz', <- ?append_assoc;
          first [ now exists (String "$" z)
                | eexists; reflexivity
                | now exists (String x z') ].
    + destruct (IH a ltac:(lia)) as [z Hz]. rewrite Hz.
      now exists (String x z).
Qed.

(** X18: a template that holds none of the six markers is returned as it
    is. *)
Theorem assemble_without_markers (t : string) (r : RenderResult)
    (ps : Js.Value) :
  forallb (fun mk => negb (Js.includes mk t)) (outlet :: otherMarkers) = true ->
  assemble t r ps = t.
Proof.
  cbn [forallb outlet otherMarkers]. rewrite !andb_true_iff, !negb_true_iff.
  intros (Ho & Hl & Hs & Hh & Hb & He & _).
  unfold assemble.
  rewrite (replace_absent "<!--preload-links-->") by assumption.
  rewrite (replace_absent "<html>") by assumption.
  rewrite (replace_absent "<body>") by assumption.
  rewrite (replace_absent "</head>") by assumption.
  rewrite (replace_absent "<!--ssr-outlet-->") by assumption.
  now rewrite (replace_absent "<!--preload-state-->") by assumption.
Qed.

(** X19: a template that holds [</head>] gives a page that holds it,
    whatever the render result is. *)
Theorem assemble_keeps_head_close (t : string) (r : RenderResult)
    (ps : Js.Value) :
  Js.includes "</head>" t = true ->
  Js.includes "</head>" (assemble t r ps) = true.
Proof.
  intros H. unfold assemble.
  apply (replace_keeps "<" "/head>" "!--preload-state-->"); try reflexivity.
  apply (replace_keeps "<" "/head>" "!--ssr-outlet-->"); try reflexivity.
  assert (H3 : Js.includes "</head>"
                 (Js.replace "<body>" ("<body " +:+ bodyAttrs r +:+ ">")
                    (Js.replace "<html>" ("<html " +:+ htmlAttrs r +:+ ">")
                       (Js.replace "<!--preload-links-->" (preloadLinks r) t)))
               = true).
  { apply (replace_keeps "<" "/head>" "body>"); try reflexivity.
    apply (replace_keeps "<" "/head>" "html>"); try reflexivity.
    now apply (replace_keeps "<" "/head>" "!--preload-links-->"). }
  destruct (includes_split _ _ H3) as (pre & post & Hsplit).
  unfold Js.replace at 1. rewrite Hsplit.
  destruct (getSubstitution_head "</head>" pre post _ (headTags r) (le_n _))
    as [x ->].
  rewrite (append_assoc x), <- (append_assoc pre x). apply includes_intro.
Qed.

(** X20: a substitute without [$] is inserted as it is, in place of the
    first occurrence of the marker. *)
Theorem replace_verbatim (p repl s pre post : string) :
  Js.splitFirst p s = Some (pre, post) ->
  free "$" repl = true ->
  s = pre +:+ p +:+ post /\
  Js.replace p repl s = pre +:+ repl +:+ post.
Proof.
  intros Hsplit Hfree. split; [now apply splitFirst_Some|].
  unfold Js.replace. rewrite Hsplit.
  rewrite <- (append_nil_r repl) at 1.
  rewrite getSubstitution_free by assumption.
  cbn [Js.getSubstitution]. now rewrite append_nil_r.
Qed.

(** X21: the app markup is read as a replacement pattern: when it holds
    [$&] after a text without [$], the outlet marker is written back and
    is still in the page. *)
Theorem dollar_ampersand_keeps_outlet (t a b : string) (r : RenderResult)
    (ps : Js.Value) :
  html r = a +:+ "$&" +:+ b ->
  free "$" a = true ->
  Js.includes outlet t = true ->
  Js.includes outlet (assemble t r ps) = true.
Proof.
  intros Hhtml Ha H. unfold assemble, outlet in *.
  apply (replace_keeps "<" "!--ssr-outlet-->" "!--preload-state-->");
    try reflexivity.
  assert (H4 : Js.includes "<!--ssr-outlet-->"
                 (Js.replace "</head>" (headTags r +:+ "</head>")
                    (Js.replace "<body>" ("<body " +:+ bodyAttrs r +:+ ">")
                       (Js.replace "<html>" ("<html " +:+ htmlAttrs r +:+ ">")
                          (Js.replace "<!--preload-links-->" (preloadLinks r)
                             t)))) = true).
  { apply (replace_keeps "<" "!--ssr-outlet-->" "/head>"); try reflexivity.
    apply (replace_keeps "<" "!--ssr-outlet-->" "body>"); try reflexivity.
    apply (replace_keeps "<" "!--ssr-outlet-->" "html>"); try reflexivity.
    now apply (replace_keeps "<" "!--ssr-outlet-->" "!--preload-links-->"). }
  destruct (includes_split _ _ H4) as (pre & post & Hsplit).
  unfold Js.replace at 1. rewrite Hsplit, Hhtml.
  rewrite getSubstitution_free by assumption.
  change ("$&" +:+ b) with (String "$" (String "&" b)).
  cbn [Js.getSubstitution Ascii.eqb Bool.eqb].
  set (G := Js.getSubstitution _ _ _ b).
  rewrite (append_assoc a), (append_assoc "<!--ssr-outlet-->" G),
    <- (append_assoc pre a).
  apply includes_intro.
Qed.

Lemma quoteBody_app (a b : string) :
  Js.quoteBody (a +:+ b) = Js.quoteBody a +:+ Js.quoteBody b.
Proof.
  induction a as [|x a IH]; [reflexivity|].
  rewrite append_cons. cbn [Js.quoteBody]. now rewrite IH, append_assoc.
Qed.

Lemma quoteBody_plain (t : string) : plain t = true -> Js.quoteBody t = t.
Proof.
  induction t as [|x t IH]; intros H; [reflexivity|].
  cbn [plain] in H. apply andb_prop in H as [Hx Ht].
  apply String.eqb_eq in Hx. cbn [Js.quoteBody].
  now rewrite Hx, IH.
Qed.

(** X22: the preload state is written into the script unescaped: text
    that needs no JSON escape, such as [</script>], goes from a string
    value into the script block as it is. *)
Theorem script_not_escaped (a t b : string) :
  plain t = true ->
  preloadStateScript (Js.Str (a +:+ t +:+ b)) =
  "<script>window.__PRELOAD_STATE__ = "
    +:+ String Js.dquote (Js.quoteBody a) +:+ t
    +:+ Js.quoteBody b +:+ String Js.dquote "</script>".
Proof.
  intros Ht. unfold preloadStateScript. cbn [Js.stringify Js.interpolate].
  unfold Js.quote. rewrite !quoteBody_app, (quoteBody_plain t Ht).
  rewrite !append_cons, !append_assoc. reflexivity.
Qed.

End Assembly.

(** ** The further facts on concrete deployments *)

Lemma use_rejects_only_on_lookup_witness :
  isProd unreachableCacheSite = true /\
  cacheFault unreachableCacheSite (OpGet ("ssr:" +:+ originalUrl home))
    = Some "ECONNREFUSED" /\
  snd (use unreachableCacheSite home (arrive None ∅)) =
  {| events := CacheGet ("ssr:" +:+ originalUrl home) :: nil;
     vite := None; store := ∅; headersSent := false |}.
Proof.
  apply (use_rejects_only_on_lookup unreachableCacheSite home None ∅
           "ECONNREFUSED").
  reflexivity.
Defined.

Lemma use_answers_or_hands_over_witness :
  let evs := events (snd (use productionSite home (arrive None ∅))) in
  (exists body, responses evs = (200, "text/html", body) :: nil) \/
  (exists err, handovers evs = err :: nil).
Proof.
  apply (use_answers_or_hands_over productionSite home None ∅).
  reflexivity.
Defined.

Lemma development_never_uses_cache_witness :
  let st' := snd (use devSite home (arrive None cachedHome)) in
  store st' = cachedHome /\
  forallb (fun ev => negb (cacheUse ev)) (events st') = true.
Proof.
  apply (development_never_uses_cache devSite home None cachedHome).
  reflexivity.
Defined.

Lemma production_never_uses_dev_server_witness :
  let st' := snd (use productionSite home (arrive (Some idleServer) ∅)) in
  vite st' = Some idleServer /\
  forallb (fun ev => negb (devServerUse ev)) (events st') = true.
Proof.
  apply (production_never_uses_dev_server productionSite home
           (Some idleServer) ∅).
  reflexivity.
Defined.

Lemma dev_server_created_on_first_use_witness :
  let st' := snd (use devSite home (arrive None ∅)) in
  serverCreations (events st') = 1%nat /\
  match createServer devSite with
  | Js.Normal v' => vite st' = Some v'
  | Js.Throw e =>
      vite st' = None /\ handovers (events st') = Some e :: nil /\
      responses (events st') = nil
  end.
Proof.
  apply (dev_server_created_on_first_use devSite home ∅ (Js.Obj nil));
    reflexivity.
Defined.

Lemma nullish_ctx_degrades_witness :
  exists st2,
    use bareSite home (arrive None ∅) = (Js.Normal tt, st2) /\
    responses (events st2)
      = (200, "text/html", Js.replace "<!--ssr-outlet-->" EmptyString shell)
          :: nil /\
    renderCalls (events st2) = ("/", Js.Null, Js.Obj nil) :: nil /\
    cacheWrites (events st2) = nil /\
    store st2 = ∅ /\
    handovers (events st2) = nil.
Proof.
  apply (nullish_ctx_degrades bareSite home None ∅
           (snd (resolve bareSite "/" (afterLookup bareSite home None ∅)))
           (Js.Obj nil) shell (renders bareResult) Js.Null bareResult);
    [intros _; split; reflexivity | reflexivity.. | left; reflexivity].
Defined.

Lemma write_failure_after_response_witness :
  let page := assemble shell rankPage (Js.Obj (("total", Js.Num 3) :: nil)) in
  let run := use readOnlyCacheSite home (arrive None ∅) in
  fst run = Js.Normal tt /\
  responses (events (snd run)) = (200, "text/html", page) :: nil /\
  handovers (events (snd run)) = Some "ERR_HTTP_HEADERS_SENT" :: nil /\
  store (snd run) = ∅.
Proof.
  intros page run. unfold run.
  rewrite (write_failure_after_response readOnlyCacheSite home None ∅
             (snd (resolve readOnlyCacheSite "/"
                     (afterLookup readOnlyCacheSite home None ∅)))
             (Js.Obj nil) shell (renders rankPage) Js.Null rankPage
             (Js.Obj (("total", Js.Num 3) :: nil)) "READONLY");
    [repeat split | reflexivity | intros _; split; reflexivity
    | reflexivity..].
Defined.

Lemma render_cache_round_trip_witness :
  let st2 := snd (use productionSite home (arrive None ∅)) in
  use productionSite home (arrive None (store st2)) =
  (Js.Normal tt,
   {| events := CacheGet "ssr:/" :: Console CacheHit
                  :: Respond 200 "text/html"
                       (assemble shell rankPage
                          (Js.Obj (("total", Js.Num 3) :: nil))) :: nil;
      vite := None; store := store st2; headersSent := true |}).
Proof.
  apply (render_cache_round_trip productionSite home None ∅
           (snd (resolve productionSite "/"
                   (afterLookup productionSite home None ∅)))
           (Js.Obj nil) shell (renders rankPage) Js.Null rankPage
           (Js.Obj (("total", Js.Num 3) :: nil)) home None);
    [reflexivity | intros _; split; reflexivity | reflexivity..
    | vm_compute; discriminate | reflexivity].
Defined.

Lemma bypass_characterisation_witness : bypass apiary = true.
Proof.
  apply (proj2 (bypass_characterisation apiary)).
  left. exists "ary". reflexivity.
Defined.

Lemma clearCache_twice_witness :
  let st1 := snd (clearCache productionSite (arrive None threeKeys)) in
  ssrKeys st1 = nil /\
  clearCache productionSite st1 =
  (Js.Normal Js.Undefined,
   after (after st1 (CacheKeys :: nil)) (Console NoCacheToClear :: nil)).
Proof.
  apply (clearCache_twice productionSite (arrive None threeKeys));
    reflexivity.
Defined.

Lemma clearCache_partial_failure_witness :
  let run := clearCache stuckKeySite (arrive None threeKeys) in
  fst run = Js.Throw "EIO" /\
  store (snd run) !! "ssr:/a" = Some ("<html>a</html>", 86400000) /\
  store (snd run) !! "ssr:/b" = None /\
  store (snd run) !! "other:/c" = Some ("c", 1000).
Proof.
  intros run.
  destruct (clearCache_partial_failure stuckKeySite (arrive None threeKeys)
              eq_refl) as [Hstore _].
  unfold run. rewrite !Hstore. repeat split.
Defined.

Lemma assemble_without_markers_witness :
  assemble bareTemplate rankPage (Js.Num 1) = bareTemplate.
Proof.
  apply (assemble_without_markers bareTemplate rankPage (Js.Num 1)).
  reflexivity.
Defined.

Lemma assemble_keeps_head_close_witness :
  Js.includes "</head>"
    (assemble shell rankPage (Js.Obj (("total", Js.Num 3) :: nil))) = true.
Proof.
  apply (assemble_keeps_head_close shell rankPage). reflexivity.
Defined.

Lemma replace_verbatim_witness :
  scenarioTemplate =
    "<html><head></head><body>" +:+ outlet
      +:+ "<!--preload-state--></body></html>" /\
  Js.replace outlet "<div>A</div>" scenarioTemplate =
    "<html><head></head><body>" +:+ "<div>A</div>"
      +:+ "<!--preload-state--></body></html>".
Proof.
  apply (replace_verbatim outlet "<div>A</div>" scenarioTemplate);
    reflexivity.
Defined.

Lemma dollar_ampersand_keeps_outlet_witness :
  Js.includes outlet (assemble shell patternResult Js.Undefined) = true.
Proof.
  apply (dollar_ampersand_keeps_outlet shell "<b>" "</b>" patternResult);
    reflexivity.
Defined.

Lemma script_not_escaped_witness :
  preloadStateScript (Js.Str ("x" +:+ "</script>" +:+ "<img src=y>")) =
  "<script>window.__PRELOAD_STATE__ = "
    +:+ String Js.dquote (Js.quoteBody "x") +:+ "</script>"
    +:+ Js.quoteBody "<img src=y>" +:+ String Js.dquote "</script>".
Proof.
  apply (script_not_escaped "x" "</script>" "<img src=y>"). reflexivity.
Defined.

Lemma bypass_loads_nothing_witness :
  let st' := snd (use devSite apiUsers (arrive None ∅)) in
  vite st' = None /\
  forallb (fun ev => negb (loading ev || devServerUse ev)) (events st') = true.
Proof.
  apply (bypass_loads_nothing devSite apiUsers None ∅). reflexivity.
Defined.
